(** * Comment creation pipeline (includes/Mari/src/comment.js)

    A shallow embedding of the comment module: the JavaScript values it
    inspects dynamically, the mutation form it assembles, its collaborators
    (HTTP functions, stream predicate, token generator) as an interface, and
    the entry point [createCommentPost] as a function from a call to the
    events the call causes, its return value and the final state of the
    promise it creates.  Calls to the logger are not recorded. *)

From Stdlib Require Import List String Ascii ZArith NArith Lia Bool Arith.
From Stdlib Require Import DecimalString.
Import ListNotations.
Open Scope string_scope.
Open Scope Z_scope.
Set Warnings "-register-all".

(** ** JavaScript values *)

(** The values the module looks at with [typeof], truthiness tests and
    property reads.  A number is an integer (the module never produces a
    fraction other than the random draw, which is modelled apart); a string
    has one [ascii] per code unit, so code units are below 256; a function is
    known by its identity, its behaviour is given by the collaborators. *)
Inductive value : Type :=
| VUndefined
| VNull
| VBool (b : bool)
| VNum (n : Z)
| VStr (s : string)
| VFun (f : nat)
| VArr (items : list value)
| VObj (props : list (string * value)).

Inductive jstype : Type :=
| TUndefined | TObject | TBoolean | TNumber | TString | TFunction.

Definition jstype_eqb (a b : jstype) : bool :=
  match a, b with
  | TUndefined, TUndefined | TObject, TObject | TBoolean, TBoolean
  | TNumber, TNumber | TString, TString | TFunction, TFunction => true
  | _, _ => false
  end.

(** [typeof v] *)
Definition typeof (v : value) : jstype :=
  match v with
  | VUndefined => TUndefined
  | VNull => TObject
  | VBool _ => TBoolean
  | VNum _ => TNumber
  | VStr _ => TString
  | VFun _ => TFunction
  | VArr _ => TObject
  | VObj _ => TObject
  end.

(** ToBoolean: what [if (v)], [!v] and [v || w] test. *)
Definition truthy (v : value) : bool :=
  match v with
  | VUndefined | VNull => false
  | VBool b => b
  | VNum n => negb (n =? 0)
  | VStr s => negb (String.eqb s "")
  | VFun _ | VArr _ | VObj _ => true
  end.

(** [a || b] *)
Definition js_or (a b : value) : value := if truthy a then a else b.

(** Results of code that can throw: [Ok a] on normal completion, [Throw e]
    when the exception [e] is thrown (or the promise is rejected with [e]). *)
Inductive result (A : Type) : Type :=
| Ok (a : A)
| Throw (e : value).
Arguments Ok {A} a.
Arguments Throw {A} e.

Definition bind {A B : Type} (r : result A) (k : A -> result B) : result B :=
  match r with
  | Ok a => k a
  | Throw e => Throw e
  end.

Notation "x <- r ;; k" := (bind r (fun x => k))
  (at level 61, r at next level, right associativity).

(** Error objects, with the two properties a caller reads. *)
Definition js_error (name message : string) : value :=
  VObj [("name", VStr name); ("message", VStr message)].

Definition Error (message : string) : value := js_error "Error" message.
Definition TypeError (message : string) : value := js_error "TypeError" message.

Fixpoint lookup (k : string) (props : list (string * value)) : value :=
  match props with
  | [] => VUndefined
  | (k', v) :: rest => if String.eqb k k' then v else lookup k rest
  end.

(** [v.k], for the property names the module reads ([tag], [id], [error],
    [payload], [fbid], [errors], [data], ...), none of which is a built-in
    property of strings, numbers, arrays or functions.  Reading a property of
    [undefined] or [null] throws. *)
Definition get (v : value) (k : string) : result value :=
  match v with
  | VUndefined =>
      Throw (TypeError ("Cannot read properties of undefined (reading '" ++ k ++ "')"))
  | VNull =>
      Throw (TypeError ("Cannot read properties of null (reading '" ++ k ++ "')"))
  | VObj props => Ok (lookup k props)
  | _ => Ok VUndefined
  end.

(** Decimal form of an integer, as [Number.prototype.toString] prints the
    integers below 10^21. *)
Definition string_of_Z (n : Z) : string := NilZero.string_of_int (Z.to_int n).

Section ToString.
(** The source text of a function, which [String(f)] returns. *)
Variable function_source : nat -> string.

(** [String(v)] on values without a [toString] of their own. *)
Fixpoint ToString (v : value) : string :=
  match v with
  | VUndefined => "undefined"
  | VNull => "null"
  | VBool true => "true"
  | VBool false => "false"
  | VNum n => string_of_Z n
  | VStr s => s
  | VFun f => function_source f
  | VArr items =>
      String.concat "," (map (fun x => match x with
                              | VUndefined | VNull => ""
                              | _ => ToString x
                              end) items)
  | VObj _ => "[object Object]"
  end.
End ToString.

(** ** Strings *)

Definition strlen (s : string) : Z := Z.of_nat (String.length s).

Fixpoint skip (n : nat) (s : string) : string :=
  match n, s with
  | O, _ => s
  | S n', String _ s' => skip n' s'
  | S _, EmptyString => EmptyString
  end.

(** First position, counted from [k], at which [tag] is a prefix of a suffix
    of [s]. *)
Fixpoint index_from (tag s : string) (k : nat) : option nat :=
  if String.prefix tag s then Some k
  else match s with
       | EmptyString => None
       | String _ s' => index_from tag s' (S k)
       end.

(** [s.indexOf(tag, pos)]: the search starts at [pos] clamped to
    [0 .. s.length]; -1 when there is no occurrence. *)
Definition indexOf (s tag : string) (pos : Z) : Z :=
  let start := Z.to_nat (Z.min (Z.max pos 0) (strlen s)) in
  match index_from tag (skip start s) start with
  | Some k => Z.of_nat k
  | None => -1
  end.

(** ** Base64 of a string, [Buffer.from(s).toString('base64')] *)

(** [Buffer.from(s)]: the UTF-8 bytes of [s]; a code unit below 128 is one
    byte, one from 128 to 255 is two. *)
Definition utf8_of_char (c : ascii) : list N :=
  let n := N_of_ascii c in
  if (n <? 128)%N then [n]
  else [(192 + N.shiftr n 6)%N; (128 + N.land n 63)%N].

Fixpoint utf8 (s : string) : list N :=
  match s with
  | EmptyString => []
  | String c s' => utf8_of_char c ++ utf8 s'
  end.

Definition base64_alphabet : string :=
  "ABCDEFGHIJKLMNOPQRSTUVWXYZabcdefghijklmnopqrstuvwxyz0123456789+/".

Definition base64_digit (n : N) : ascii :=
  match String.get (N.to_nat n) base64_alphabet with
  | Some c => c
  | None => "="%char
  end.

Fixpoint base64 (bytes : list N) : string :=
  match bytes with
  | [] => ""
  | [a] =>
      String (base64_digit (N.shiftr a 2))
     (String (base64_digit (N.shiftl (N.land a 3) 4)) "==")
  | [a; b] =>
      String (base64_digit (N.shiftr a 2))
     (String (base64_digit (N.lor (N.shiftl (N.land a 3) 4) (N.shiftr b 4)))
     (String (base64_digit (N.shiftl (N.land b 15) 2)) "="))
  | a :: b :: c :: rest =>
      String (base64_digit (N.shiftr a 2))
     (String (base64_digit (N.lor (N.shiftl (N.land a 3) 4) (N.shiftr b 4)))
     (String (base64_digit (N.lor (N.shiftl (N.land b 15) 2) (N.shiftr c 6)))
     (String (base64_digit (N.land c 63)) (base64 rest))))
  end.

(** The inverse of [base64], used to state that the encoding loses
    nothing. *)
Fixpoint position (c : ascii) (s : string) (k : N) : option N :=
  match s with
  | EmptyString => None
  | String c' s' => if Ascii.eqb c c' then Some k else position c s' (k + 1)%N
  end.

Definition base64_value (c : ascii) : option N := position c base64_alphabet 0.

Definition is_padding (c : ascii) : bool := Ascii.eqb c "="%char.

Fixpoint base64_decode (s : string) : option (list N) :=
  match s with
  | EmptyString => Some []
  | String c0 (String c1 (String c2 (String c3 rest))) =>
      match base64_value c0, base64_value c1 with
      | Some v0, Some v1 =>
          let b0 := N.lor (N.shiftl v0 2) (N.shiftr v1 4) in
          if is_padding c2 then
            if is_padding c3 && String.eqb rest "" then Some [b0] else None
          else
            match base64_value c2 with
            | Some v2 =>
                let b1 := N.lor (N.shiftl (N.land v1 15) 4) (N.shiftr v2 2) in
                if is_padding c3 then
                  if String.eqb rest "" then Some [b0; b1] else None
                else
                  match base64_value c3, base64_decode rest with
                  | Some v3, Some bytes =>
                      Some (b0 :: b1 :: N.lor (N.shiftl (N.land v2 3) 6) v3 :: bytes)
                  | _, _ => None
                  end
            | None => None
            end
      | _, _ => None
      end
  | _ => None
  end.

(** The numbers below [n], for checks by enumeration. *)
Definition below (n : nat) : list N := map N.of_nat (seq 0 n).

(** The sextets of two consecutive bytes decode to them: the checks the
    round trip needs, one pair of bytes at a time. *)
Definition sextets_ok (a b : N) : bool :=
  let s0 := N.shiftr a 2 in
  let s1 := N.lor (N.shiftl (N.land a 3) 4) (N.shiftr b 4) in
  let s2 := N.lor (N.shiftl (N.land a 15) 2) (N.shiftr b 6) in
  let s3 := N.land b 63 in
  (s0 <? 64)%N && (s1 <? 64)%N && (s2 <? 64)%N && (s3 <? 64)%N
  && (N.lor (N.shiftl s0 2) (N.shiftr s1 4) =? a)%N
  && (N.land s1 15 =? N.shiftr b 4)%N
  && (N.shiftr s2 2 =? N.land a 15)%N
  && (N.lor (N.shiftl (N.shiftr a 4) 4) (N.land a 15) =? a)%N
  && (N.lor (N.shiftl (N.land s2 3) 6) s3 =? b)%N.

Definition digit_ok (n : N) : bool :=
  match base64_value (base64_digit n) with
  | Some m => (m =? n)%N && negb (is_padding (base64_digit n))
  | None => false
  end.

(** ** The caller's message *)

(** A mention [{tag, id, fromIndex}]: [tag] and [id] are checked dynamically
    by the module, [fromIndex] is a number or absent. *)
Record Mention : Type := {
  mention_tag : value;
  mention_id : value;
  mention_fromIndex : option Z
}.

(** A message object: [body] is a string or absent, [attachments] and
    [mentions] are arrays or absent, [url] and [sticker] are any value
    ([VUndefined] when absent). *)
Record MessageObject : Type := {
  msg_body : option string;
  msg_attachments : option (list value);
  msg_mentions : option (list Mention);
  msg_url : value;
  msg_sticker : value
}.

(** The first argument of [createCommentPost]. *)
Inductive MsgArg : Type :=
| MsgString (s : string)
| MsgObject (m : MessageObject)
| MsgNull
| MsgUndefined
| MsgBoolean (b : bool)
| MsgNumber (n : Z)
| MsgFunction (f : nat).

Definition typeof_msg (msg : MsgArg) : jstype :=
  match msg with
  | MsgString _ => TString
  | MsgObject _ => TObject
  | MsgNull => TObject
  | MsgUndefined => TUndefined
  | MsgBoolean _ => TBoolean
  | MsgNumber _ => TNumber
  | MsgFunction _ => TFunction
  end.

(** ** The mutation form *)

Record Range : Type := {
  range_entity_id : value;
  range_length : Z;
  range_offset : Z
}.

(** An attachment descriptor: [{media: {id}}] or [{link: {external: {url}}}]. *)
Inductive Descriptor : Type :=
| Media (id : value)
| Link (url : string).

Record MessageBlock : Type := {
  ranges : list Range;
  text : string
}.

Record Input : Type := {
  client_mutation_id : string;
  actor_id : value;
  attachments : list Descriptor;
  feedback_id : string;
  message : MessageBlock;
  reply_comment_parent_fbid : value;
  is_tracking_encrypted : bool;
  tracking : list value;
  feedback_source : string;
  idempotence_token : string;
  session_id : string
}.

Record Form : Type := {
  feedLocation : string;
  feedbackSource : Z;
  groupID : value;
  input : Input;
  scale : Z;
  useDefaultActor : bool
}.

Definition with_input (form : Form) (i : Input) : Form :=
  {| feedLocation := feedLocation form;
     feedbackSource := feedbackSource form;
     groupID := groupID form;
     input := i;
     scale := scale form;
     useDefaultActor := useDefaultActor form |}.

Definition with_attachments (i : Input) (l : list Descriptor) : Input :=
  {| client_mutation_id := client_mutation_id i;
     actor_id := actor_id i;
     attachments := l;
     feedback_id := feedback_id i;
     message := message i;
     reply_comment_parent_fbid := reply_comment_parent_fbid i;
     is_tracking_encrypted := is_tracking_encrypted i;
     tracking := tracking i;
     feedback_source := feedback_source i;
     idempotence_token := idempotence_token i;
     session_id := session_id i |}.

Definition with_message (i : Input) (m : MessageBlock) : Input :=
  {| client_mutation_id := client_mutation_id i;
     actor_id := actor_id i;
     attachments := attachments i;
     feedback_id := feedback_id i;
     message := m;
     reply_comment_parent_fbid := reply_comment_parent_fbid i;
     is_tracking_encrypted := is_tracking_encrypted i;
     tracking := tracking i;
     feedback_source := feedback_source i;
     idempotence_token := idempotence_token i;
     session_id := session_id i |}.

(** [form.input.attachments.push(d)] *)
Definition push_attachment (form : Form) (d : Descriptor) : Form :=
  with_input form (with_attachments (input form) (attachments (input form) ++ [d])).

(** [form.input.message.ranges.push(r)] *)
Definition push_range (form : Form) (r : Range) : Form :=
  with_input form
    (with_message (input form)
       {| ranges := ranges (message (input form)) ++ [r];
          text := text (message (input form)) |}).

(** ** Requests, events and the result of a call *)

(** The fields of an upload request to [/ajax/ufi/upload/]. *)
Record UploadRequest : Type := {
  upload_url : string;
  profile_id : value;
  source : Z;
  target_id : value;
  file : value
}.

(** The fields of the mutation request to [/api/graphql/].  [variables] is
    the form that [JSON.stringify] serialises: the text sent is a function of
    it, and two requests are compared by the forms they carry. *)
Record MutationRequest : Type := {
  mutation_url : string;
  fb_api_caller_class : string;
  fb_api_req_friendly_name : string;
  variables : Form;
  server_timestamps : bool;
  doc_id : Z
}.

Inductive Event : Type :=
| EUpload (r : UploadRequest)        (* [defaultFuncs.postFormData] called *)
| ESubmit (r : MutationRequest)      (* [defaultFuncs.post] called *)
| ECallback (err data : value)       (* the completion callback called *)
| EUnhandledRejection (e : value).   (* the handler chain ends rejected *)

Inductive PromiseState : Type :=
| Pending
| Fulfilled (v : value)
| Rejected (e : value).

(** What the call returns: the promise it created, or another value. *)
Inductive Returned : Type :=
| RetPromise
| RetValue (v : value).

Inductive Outcome : Type :=
| Returns (r : Returned)
| Throws (e : value).

(** A call of [createCommentPost]: how the call itself ends, the events
    before it returns, the events after it has returned, and the final state
    of [returnPromise]. *)
Record Run : Type := {
  outcome : Outcome;
  during_call : list Event;
  after_call : list Event;
  promise : PromiseState
}.

(** Which function [callback] holds once the optional parameters are
    handled: the default one, which settles [returnPromise], or the
    caller's. *)
Inductive Completion : Type :=
| DefaultCallback
| UserCallback (f : nat).

(** How many times [Math.random] and [utils.getGUID] have been called. *)
Record State : Type := {
  random_calls : nat;
  guid_calls : nat
}.

(** ** Collaborators *)

(** What the module is given or imports.  [postFormData i r] is what the
    promise [defaultFuncs.postFormData(...).then(utils.parseAndCheckLogin(...))]
    of the [i]-th attachment settles to, [post r] the same for the mutation
    request.  [settle_order] is the order in which the uploads of a call
    settle.  [Math_random k] is the numerator, over 2^53, of the [k]-th draw
    of [Math.random], [getGUID k] the [k]-th token. *)
Class Collaborators : Type := {
  userID : value;
  isReadableStream : value -> bool;
  postFormData : nat -> UploadRequest -> result value;
  post : MutationRequest -> result value;
  settle_order : list nat;
  getGUID : nat -> string;
  Math_random : nat -> Z;
  call_function : nat -> value -> value -> result value;
  function_source : nat -> string
}.

(** ** The module's functions *)

Section Module.
Context {collaborators : Collaborators}.

Definition upload_request (item : value) : UploadRequest :=
  {| upload_url := "https://www.facebook.com/ajax/ufi/upload/";
     profile_id := userID;
     source := 19;
     target_id := userID;
     file := item |}.

(** The last [then] of an upload: a response with an [error], or without a
    [payload.fbid], is thrown as it is. *)
Definition upload_then (res : value) : result Descriptor :=
  error <- get res "error" ;;
  if truthy error then Throw res else
  payload <- get res "payload" ;;
  if negb (truthy payload) then Throw res else
  fbid <- get payload "fbid" ;;
  if negb (truthy fbid) then Throw res else
  Ok (Media fbid).

(** [msg.attachments.map(...)], from the attachment at index [i] on: the
    requests issued, in order, and the promises made, unless the function
    given to [map] throws. *)
Fixpoint upload_map (items : list value) (i : nat)
  : list UploadRequest * result (list (result Descriptor)) :=
  match items with
  | [] => ([], Ok [])
  | item :: rest =>
      if negb (isReadableStream item) then
        ([], Throw (Error "Attachments must be a readable stream."))
      else
        let request := upload_request item in
        let upload := res <- postFormData i request ;; upload_then res in
        let '(requests, uploads) := upload_map rest (S i) in
        (request :: requests, ps <- uploads ;; Ok (upload :: ps))
  end.

(** The first promise to reject, in the order [order] of settlement. *)
Fixpoint first_rejection {A : Type} (order : list nat) (ps : list (result A))
  : option value :=
  match order with
  | [] => None
  | i :: rest =>
      match nth_error ps i with
      | Some (Throw e) => Some e
      | _ => first_rejection rest ps
      end
  end.

Fixpoint fulfilled {A : Type} (ps : list (result A)) : list A :=
  match ps with
  | [] => []
  | Ok a :: rest => a :: fulfilled rest
  | Throw _ :: rest => fulfilled rest
  end.

(** [await Promise.all(ps)]: rejected with the reason of the first promise
    to reject, else fulfilled with the values in the order of [ps].
    Promises that [order] does not mention settle after those it does, by
    index. *)
Definition Promise_all {A : Type} (order : list nat) (ps : list (result A))
  : result (list A) :=
  match first_rejection (order ++ seq 0 (List.length ps)) ps with
  | Some e => Throw e
  | None => Ok (fulfilled ps)
  end.

(** [handleUpload]: the upload requests it issues before it first awaits,
    and the form once its promise settles. *)
Definition handleUpload (msg : MessageObject) (form : Form)
  : list UploadRequest * result Form :=
  match msg_attachments msg with
  | None | Some [] => ([], Ok form)
  | Some items =>
      let '(requests, uploads) := upload_map items 0 in
      (requests,
       ps <- uploads ;;
       results <- Promise_all settle_order ps ;;
       Ok (fold_left push_attachment results form))
  end.

Definition handleURL (msg : MessageObject) (form : Form) : Form :=
  match msg_url msg with
  | VStr url => push_attachment form (Link url)
  | _ => form
  end.

(** One turn of the loop of [handleMentions]. *)
Definition handleMention (body : option string) (item : Mention) (form : Form)
  : result Form :=
  let tag := mention_tag item in
  let id := mention_id item in
  let fromIndex := mention_fromIndex item in
  match tag with
  | VStr tag =>
      if negb (truthy id) then Ok form else
      match body with
      | None =>
          Throw (TypeError "Cannot read properties of undefined (reading 'indexOf')")
      | Some body =>
          let offset :=
            indexOf body tag (match fromIndex with Some n => n | None => 0 end) in
          if offset <? 0 then Ok form else
          Ok (push_range form
                {| range_entity_id := id;
                   range_length := strlen tag;
                   range_offset := offset |})
      end
  | _ => Ok form
  end.

Fixpoint handleMentions_loop (body : option string) (items : list Mention)
    (form : Form) : result Form :=
  match items with
  | [] => Ok form
  | item :: rest =>
      form' <- handleMention body item form ;;
      handleMentions_loop body rest form'
  end.

Definition handleMentions (msg : MessageObject) (form : Form) : result Form :=
  match msg_mentions msg with
  | None => Ok form
  | Some items => handleMentions_loop (msg_body msg) items form
  end.

Definition handleSticker (msg : MessageObject) (form : Form) : Form :=
  if truthy (msg_sticker msg) then
    push_attachment form (Media (VStr (ToString function_source (msg_sticker msg))))
  else form.

Definition mutation_request (form : Form) : MutationRequest :=
  {| mutation_url := "https://www.facebook.com/api/graphql/";
     fb_api_caller_class := "RelayModern";
     fb_api_req_friendly_name := "useCometUFICreateCommentMutation";
     variables := form;
     server_timestamps := true;
     doc_id := 6993516810709754 |}.

(** What [createContent] does with the parsed response. *)
Definition createContent_result (res : value) : result value :=
  errors <- get res "errors" ;;
  if truthy errors then Throw res else
  data <- get res "data" ;;
  comment_create <- get data "comment_create" ;;
  commentEdge <- get comment_create "feedback_comment_edge" ;;
  node <- get commentEdge "node" ;;
  id <- get node "id" ;;
  node <- get commentEdge "node" ;;
  feedback <- get node "feedback" ;;
  url <- get feedback "url" ;;
  data <- get res "data" ;;
  comment_create <- get data "comment_create" ;;
  feedback <- get comment_create "feedback" ;;
  count <- get feedback "total_comment_count" ;;
  Ok (VObj [("id", id); ("url", url); ("count", count)]).

(** [createContent]: the request it sends and what its promise settles to. *)
Definition createContent (form : Form) : MutationRequest * result value :=
  let request := mutation_request form in
  (request, res <- post request ;; createContent_result res).

(** [Math.round(r * 19)] for the draw [r = m / 2^53], the product taken
    exactly: the integer nearest to it, a half rounded up. *)
Definition Math_round_19 (m : Z) : Z := (38 * m + 2 ^ 53) / 2 ^ 54.

Definition validation_error (message : string) : value :=
  VObj [("error", VStr message)].

Definition settle (p s : PromiseState) : PromiseState :=
  match p with
  | Pending => s
  | _ => p
  end.

(** [callback(err, data)]: the call, what it returns or throws, and the
    state of [returnPromise] after it. *)
Definition invoke (callback : Completion) (err data : value) (p : PromiseState)
  : list Event * result value * PromiseState :=
  match callback with
  | DefaultCallback =>
      ([ECallback err data], Ok VUndefined,
       if truthy err then settle p (Rejected err) else settle p (Fulfilled data))
  | UserCallback f => ([ECallback err data], call_function f err data, p)
  end.

(** The [catch] handler at the end of the chain. *)
Definition on_rejected (callback : Completion) (err : value) (p : PromiseState)
  : list Event * PromiseState :=
  let '(calls, r, p') := invoke callback err VUndefined p in
  match r with
  | Ok _ => (calls, p')
  | Throw e => ((calls ++ [EUnhandledRejection e])%list, p')
  end.

(** The last [then] handler, followed by the [catch] handler when it
    throws. *)
Definition on_fulfilled (callback : Completion) (info : value) (p : PromiseState)
  : list Event * PromiseState :=
  let '(calls, r, p') := invoke callback VNull info p in
  match r with
  | Ok _ => (calls, p')
  | Throw e =>
      let '(calls', p'') := on_rejected callback e p' in
      ((calls ++ calls')%list, p'')
  end.

(** [l || []] *)
Definition or_empty {A : Type} (l : option (list A)) : list A :=
  match l with
  | Some l => l
  | None => []
  end.

(** The message object prepared from the first argument. *)
Definition with_defaults (m : MessageObject) : MessageObject :=
  {| msg_body := msg_body m;
     msg_attachments := Some (or_empty (msg_attachments m));
     msg_mentions := Some (or_empty (msg_mentions m));
     msg_url := msg_url m;
     msg_sticker := msg_sticker m |}.

Definition no_properties : MessageObject :=
  {| msg_body := None;
     msg_attachments := None;
     msg_mentions := None;
     msg_url := VUndefined;
     msg_sticker := VUndefined |}.

Definition body_only (s : string) : MessageObject :=
  {| msg_body := Some s;
     msg_attachments := None;
     msg_mentions := None;
     msg_url := VUndefined;
     msg_sticker := VUndefined |}.

Definition prepare (msg : MsgArg) : result MessageObject :=
  match msg with
  | MsgString s => Ok (with_defaults (body_only s))
  | MsgObject m => Ok (with_defaults m)
  | MsgNull =>
      Throw (TypeError "Cannot read properties of null (reading 'mentions')")
  | MsgUndefined =>
      Throw (TypeError "Cannot read properties of undefined (reading 'mentions')")
  | MsgBoolean b =>
      Throw (TypeError ("Cannot create property 'mentions' on boolean '"
                        ++ (if b then "true" else "false") ++ "'"))
  | MsgNumber n =>
      Throw (TypeError ("Cannot create property 'mentions' on number '"
                        ++ string_of_Z n ++ "'"))
  | MsgFunction _ => Ok (with_defaults no_properties)
  end.

(** The form as [createCommentPost] first builds it. *)
Definition build_form (st : State) (messageObject : MessageObject)
    (postID replyCommentID : value) : Form :=
  {| feedLocation := "NEWSFEED";
     feedbackSource := 1;
     groupID := VNull;
     input :=
       {| client_mutation_id :=
            string_of_Z (Math_round_19 (Math_random (random_calls st)));
          actor_id := userID;
          attachments := [];
          feedback_id :=
            base64 (utf8 ("feedback:" ++ ToString function_source postID));
          message :=
            {| ranges := [];
               text := match msg_body messageObject with
                       | Some body => body
                       | None => ""
                       end |};
          reply_comment_parent_fbid := js_or replyCommentID VNull;
          is_tracking_encrypted := true;
          tracking := [];
          feedback_source := "NEWS_FEED";
          idempotence_token := "client:" ++ getGUID (guid_calls st);
          session_id := getGUID (S (guid_calls st)) |};
     scale := 1;
     useDefaultActor := false |}.

Definition after_build (st : State) : State :=
  {| random_calls := S (random_calls st);
     guid_calls := S (S (guid_calls st)) |}.

(** The first [then] handler: the mergers, then [createContent]. *)
Definition merge_and_submit (messageObject : MessageObject) (form : Form)
  : list MutationRequest * result value :=
  let form := handleURL messageObject form in
  match handleMentions messageObject form with
  | Throw e => ([], Throw e)
  | Ok form =>
      let form := handleSticker messageObject form in
      let '(request, info) := createContent form in
      ([request], info)
  end.

(** The call ends in its validation: [return callback({ error: error })]. *)
Definition fail_validation (callback : Completion) (message : string)
    (st : State) : Run * State :=
  let '(calls, r, p) := invoke callback (validation_error message) VUndefined Pending in
  ({| outcome := match r with
                 | Ok v => Returns (RetValue v)
                 | Throw e => Throws e
                 end;
      during_call := calls;
      after_call := [];
      promise := p |}, st).

(** The reply parent and the completion callback once a function passed as
    [replyCommentID] is taken as the callback and a missing callback is
    replaced by the default one. *)
Definition optional_parameters (replyCommentID : value) (callback : option nat)
  : value * Completion :=
  let '(replyCommentID, callback) :=
    match replyCommentID with
    | VFun f => (VNull, Some f)
    | _ => (replyCommentID, callback)
    end in
  (replyCommentID,
   match callback with
   | Some f => UserCallback f
   | None => DefaultCallback
   end).

Definition createCommentPost (st : State) (msg : MsgArg)
    (postID replyCommentID : value) (callback : option nat) : Run * State :=
  (* Handle optional parameters *)
  let '(replyCommentID, callback) := optional_parameters replyCommentID callback in
  (* Validation *)
  if negb (jstype_eqb (typeof_msg msg) TString)
     && negb (jstype_eqb (typeof_msg msg) TObject) then
    fail_validation callback "Message must be a string or an object." st
  else if negb (jstype_eqb (typeof postID) TString) then
    fail_validation callback "postID must be a string." st
  else
    (* Prepare message object *)
    match prepare msg with
    | Throw e =>
        ({| outcome := Throws e;
            during_call := [];
            after_call := [];
            promise := Pending |}, st)
    | Ok messageObject =>
        (* Build form *)
        let form := build_form st messageObject postID replyCommentID in
        (* Process all handlers and create comment *)
        let '(uploads, uploaded) := handleUpload messageObject form in
        let '(submits, settled) :=
          match uploaded with
          | Throw e => ([], Throw e)
          | Ok form => merge_and_submit messageObject form
          end in
        let '(calls, p) :=
          match settled with
          | Ok info => on_fulfilled callback info Pending
          | Throw err => on_rejected callback err Pending
          end in
        ({| outcome := Returns RetPromise;
            during_call := map EUpload uploads;
            after_call := (map ESubmit submits ++ calls)%list;
            promise := p |}, after_build st)
    end.
End Module.

(** ** Reading a run *)

Fixpoint callbacks (events : list Event) : list (value * value) :=
  match events with
  | [] => []
  | ECallback err data :: rest => (err, data) :: callbacks rest
  | _ :: rest => callbacks rest
  end.

Fixpoint upload_requests (events : list Event) : list UploadRequest :=
  match events with
  | [] => []
  | EUpload r :: rest => r :: upload_requests rest
  | _ :: rest => upload_requests rest
  end.

Fixpoint submitted_forms (events : list Event) : list Form :=
  match events with
  | [] => []
  | ESubmit r :: rest => variables r :: submitted_forms rest
  | _ :: rest => submitted_forms rest
  end.

Definition events (r : Run) : list Event := (during_call r ++ after_call r)%list.

(** ** Vocabulary of the properties *)

(** [tag] occurs in [body] at position [k]. *)
Definition occurs_at (body tag : string) (k : Z) : Prop :=
  exists before after, body = before ++ tag ++ after /\ strlen before = k.

(** The same, with the position in [nat]. *)
Definition occurs (s tag : string) (d : nat) : Prop :=
  exists before after, s = before ++ tag ++ after /\ String.length before = d.

(** [k] is the first position at or after [from] where [tag] occurs. *)
Definition first_occurrence (body tag : string) (from k : Z) : Prop :=
  from <= k /\ occurs_at body tag k
  /\ forall j, from <= j < k -> ~ occurs_at body tag j.

(** Where the search of a mention starts: [fromIndex], 0 by default. *)
Definition search_start (item : Mention) : Z :=
  match mention_fromIndex item with
  | Some n => n
  | None => 0
  end.

(** The ranges a mention adds to a message of text [body], in the words of
    the specification: one range at the first occurrence of a non-empty
    string tag with an id, none when the tag is not a string, the id is
    missing (falsy) or the tag does not occur.  The last case, the empty tag,
    is the one the specification leaves open: the module adds a range of
    length 0 where the search starts. *)
Inductive mention_ranges (body : string) (item : Mention) : list Range -> Prop :=
| mention_found (tag : string) (k : Z) :
    mention_tag item = VStr tag -> tag <> "" ->
    truthy (mention_id item) = true ->
    first_occurrence body tag (search_start item) k ->
    mention_ranges body item
      [{| range_entity_id := mention_id item;
          range_length := strlen tag;
          range_offset := k |}]
| mention_malformed :
    typeof (mention_tag item) <> TString \/ truthy (mention_id item) = false ->
    mention_ranges body item []
| mention_not_found (tag : string) :
    mention_tag item = VStr tag -> tag <> "" ->
    (forall k, search_start item <= k -> ~ occurs_at body tag k) ->
    mention_ranges body item []
| mention_empty_tag :
    mention_tag item = VStr "" ->
    truthy (mention_id item) = true ->
    mention_ranges body item
      [{| range_entity_id := mention_id item;
          range_length := 0;
          range_offset := Z.min (Z.max (search_start item) 0) (strlen body) |}].

Section Vocabulary.
Context {collaborators : Collaborators}.

(** The caller's callback, when there is one, returns normally. *)
Definition returns_normally (callback : Completion) : Prop :=
  match callback with
  | DefaultCallback => True
  | UserCallback f => forall err data, exists v, call_function f err data = Ok v
  end.

(** What the promise is left in by one call [callback(err, data)]. *)
Definition settled_by (callback : Completion) (err data : value) : PromiseState :=
  match callback with
  | DefaultCallback => if truthy err then Rejected err else Fulfilled data
  | UserCallback _ => Pending
  end.

(** The upload at index [i] of [item] succeeds with media identifier
    [fbid]: the item is a readable stream and the parsed response has no
    [error] and a [payload.fbid]. *)
Definition upload_succeeds (i : nat) (item fbid : value) : Prop :=
  isReadableStream item = true
  /\ exists res error payload,
       postFormData i (upload_request item) = Ok res
       /\ get res "error" = Ok error /\ truthy error = false
       /\ get res "payload" = Ok payload
       /\ get payload "fbid" = Ok fbid /\ truthy fbid = true.

Fixpoint uploads_succeed (i : nat) (items fbids : list value) : Prop :=
  match items, fbids with
  | [], [] => True
  | item :: items, fbid :: fbids =>
      upload_succeeds i item fbid /\ uploads_succeed (S i) items fbids
  | _, _ => False
  end.

(** The descriptor of the URL of a message, when it has one. *)
Definition url_descriptor (m : MessageObject) : list Descriptor :=
  match msg_url m with
  | VStr url => [Link url]
  | _ => []
  end.

(** The descriptor of the sticker of a message, when it has one. *)
Definition sticker_descriptor (m : MessageObject) : list Descriptor :=
  if truthy (msg_sticker m) then
    [Media (VStr (ToString function_source (msg_sticker m)))]
  else [].

(** The mention is one whose tag is searched in the body. *)
Definition searched (item : Mention) : bool :=
  match mention_tag item with
  | VStr _ => truthy (mention_id item)
  | _ => false
  end.

(** The form without what the handlers add to it. *)
Definition skeleton (form : Form) : Form :=
  with_input form
    (with_message (with_attachments (input form) [])
       {| ranges := []; text := text (message (input form)) |}).

(** The form handed to [createContent]: uploads, then URL, mentions and
    sticker. *)
Definition assemble (messageObject : MessageObject) (form : Form) : result Form :=
  form <- snd (handleUpload messageObject form) ;;
  form <- handleMentions messageObject (handleURL messageObject form) ;;
  Ok (handleSticker messageObject form).

(** What the chain of handlers settles to before the completion callback
    is called: the comment created, or the reason of the failure. *)
Definition settlement (messageObject : MessageObject) (form : Form) : result value :=
  form <- assemble messageObject form ;;
  res <- post (mutation_request form) ;;
  createContent_result res.

(** The completion of a call whose handlers settle to [settled]. *)
Definition completion (callback : Completion) (settled : result value)
  : list Event * PromiseState :=
  match settled with
  | Ok info => on_fulfilled callback info Pending
  | Throw err => on_rejected callback err Pending
  end.

(** The call passes the validation. *)
Definition validated (msg : MsgArg) (postID : value) : Prop :=
  (typeof_msg msg = TString \/ typeof_msg msg = TObject)
  /\ typeof postID = TString.

Definition map_result {A B : Type} (f : A -> B) (r : result A) : result B :=
  match r with
  | Ok a => Ok (f a)
  | Throw e => Throw e
  end.
End Vocabulary.

(** ** The claims as the specification words them *)

(** Dual completion: the call returns the promise, the completion callback
    is called exactly once, with [(error)] or [(null, result)], and the
    promise is rejected with that error or fulfilled with that result. *)
Definition dual_completion (r : Run) : Prop :=
  outcome r = Returns RetPromise
  /\ exists err data,
      callbacks (events r) = [(err, data)]
      /\ ((data = VUndefined /\ promise r = Rejected err)
          \/ (err = VNull /\ promise r = Fulfilled data)).

(** Fail-fast: the call issues no upload request. *)
Definition issues_no_upload (r : Run) : Prop :=
  upload_requests (events r) = [].

(** The call fails with the error value [e]: the completion callback is
    called once, with [e] alone. *)
Definition fails_with (r : Run) (e : value) : Prop :=
  callbacks (events r) = [(e, VUndefined)].

Definition with_tokens (i : Input) (idempotence session : string) : Input :=
  {| client_mutation_id := client_mutation_id i;
     actor_id := actor_id i;
     attachments := attachments i;
     feedback_id := feedback_id i;
     message := message i;
     reply_comment_parent_fbid := reply_comment_parent_fbid i;
     is_tracking_encrypted := is_tracking_encrypted i;
     tracking := tracking i;
     feedback_source := feedback_source i;
     idempotence_token := idempotence;
     session_id := session |}.

Definition with_client_mutation_id (i : Input) (id : string) : Input :=
  {| client_mutation_id := id;
     actor_id := actor_id i;
     attachments := attachments i;
     feedback_id := feedback_id i;
     message := message i;
     reply_comment_parent_fbid := reply_comment_parent_fbid i;
     is_tracking_encrypted := is_tracking_encrypted i;
     tracking := tracking i;
     feedback_source := feedback_source i;
     idempotence_token := idempotence_token i;
     session_id := session_id i |}.

(** The form with its two tokens blanked. *)
Definition erase_tokens (form : Form) : Form :=
  with_input form (with_tokens (input form) "" "").

(** The form with the three fields drawn per call blanked: the two tokens
    and the client mutation id. *)
Definition erase_draws (form : Form) : Form :=
  with_input form (with_client_mutation_id (with_tokens (input form) "" "") "").

(** Two request bodies identical except for their tokens, which differ. *)
Definition same_except_tokens (form1 form2 : Form) : Prop :=
  erase_tokens form1 = erase_tokens form2
  /\ idempotence_token (input form1) <> idempotence_token (input form2)
  /\ session_id (input form1) <> session_id (input form2).

(** ** Collaborators for concrete runs *)

Definition a_stream : value := VObj [("readable", VBool true)].

Definition upload_response (fbid : value) : value :=
  VObj [("payload", VObj [("fbid", fbid)])].

Definition created_response : value :=
  VObj [("data",
         VObj [("comment_create",
                VObj [("feedback_comment_edge",
                       VObj [("node",
                              VObj [("id", VStr "c1");
                                    ("feedback", VObj [("url", VStr "https://fb/c1")])])]);
                      ("feedback", VObj [("total_comment_count", VNum 7)])])])].

Definition errors_response : value :=
  VObj [("errors", VArr [VObj [("message", VStr "Rate limited")]])].

(** Collaborators that accept the objects with a true [readable] property as
    streams, answer the upload at index [i] with the media identifier [media-i],
    answer the mutation with [reply], draw 0 then 1/2 from [Math.random] and
    number the tokens; every function called returns [undefined]. *)
Definition test_collaborators (reply : result value) : Collaborators :=
  {| userID := VStr "100";
     isReadableStream := fun v =>
       match v with
       | VObj props => truthy (lookup "readable" props)
       | _ => false
       end;
     postFormData := fun i _ =>
       Ok (upload_response (VStr ("media-" ++ string_of_Z (Z.of_nat i))));
     post := fun _ => reply;
     settle_order := [];
     getGUID := fun k => "guid-" ++ string_of_Z (Z.of_nat k);
     Math_random := fun k => match k with O => 0 | S _ => 2 ^ 52 end;
     call_function := fun _ _ _ => Ok VUndefined;
     function_source := fun _ => "function () {}" |}.

Definition initial_state : State := {| random_calls := 0; guid_calls := 0 |}.

(** A message with a readable stream followed by a number. *)
Definition stream_then_number : MessageObject :=
  {| msg_body := Some "look";
     msg_attachments := Some [a_stream; VNum 0];
     msg_mentions := None;
     msg_url := VUndefined;
     msg_sticker := VUndefined |}.

(** A message with two streams, a mention, a link and a sticker. *)
Definition full_message : MessageObject :=
  {| msg_body := Some "hello world";
     msg_attachments := Some [a_stream; a_stream];
     msg_mentions :=
       Some [{| mention_tag := VStr "world";
                mention_id := VStr "42";
                mention_fromIndex := None |}];
     msg_url := VStr "https://example.org/";
     msg_sticker := VNum 369 |}.

(** A message with a mention and no body. *)
Definition mention_without_body : MessageObject :=
  {| msg_body := None;
     msg_attachments := None;
     msg_mentions :=
       Some [{| mention_tag := VStr "world";
                mention_id := VStr "42";
                mention_fromIndex := None |}];
     msg_url := VUndefined;
     msg_sticker := VUndefined |}.

(** The run of a call from the initial state, and the state it leaves. *)
Definition run_of (reply : result value) (msg : MsgArg) (postID : value)
    (callback : option nat) : Run :=
  fst (@createCommentPost (test_collaborators reply) initial_state msg postID
         VUndefined callback).

Definition state_after (reply : result value) (msg : MsgArg) (postID : value)
    (callback : option nat) : State :=
  snd (@createCommentPost (test_collaborators reply) initial_state msg postID
         VUndefined callback).

(** The run of the same call made a second time. *)
Definition second_run_of (reply : result value) (msg : MsgArg) (postID : value)
    (callback : option nat) : Run :=
  fst (@createCommentPost (test_collaborators reply)
         (state_after reply msg postID callback) msg postID VUndefined callback).

(** ** Vocabulary of the further properties *)

(** The inverse of [utf8] on the bytes of strings with code units below
    256, used to state that the encoding loses nothing. *)
Fixpoint utf8_decode (bytes : list N) : option string :=
  match bytes with
  | [] => Some EmptyString
  | b :: rest =>
      if (b <? 128)%N then
        match utf8_decode rest with
        | Some s => Some (String (ascii_of_N b) s)
        | None => None
        end
      else
        match rest with
        | [] => None
        | b' :: rest' =>
            match utf8_decode rest' with
            | Some s => Some (String (ascii_of_N ((b - 192) * 64 + (b' - 128))%N) s)
            | None => None
            end
        end
  end.

(** The attachments of the first argument: those of a message object, none
    otherwise. *)
Definition attachments_of (msg : MsgArg) : list value :=
  match msg with
  | MsgObject m => or_empty (msg_attachments m)
  | _ => []
  end.

(** The reply parent that reaches the form: none when the third argument is
    a function or falsy. *)
Definition reply_parent (replyCommentID : value) : value :=
  match replyCommentID with
  | VFun _ => VNull
  | v => if truthy v then v else VNull
  end.

Section FurtherVocabulary.
Context {collaborators : Collaborators}.

(** What the upload of [item] at index [i] settles to. *)
Definition upload_outcome (i : nat) (item : value) : result Descriptor :=
  res <- postFormData i (upload_request item) ;; upload_then res.

(** The range [r] marks an occurrence in [body] of the tag of one of
    [items], with the id of that mention. *)
Definition marks_a_tag (body : string) (items : list Mention) (r : Range) : Prop :=
  exists item tag,
    In item items
    /\ mention_tag item = VStr tag
    /\ range_entity_id r = mention_id item
    /\ range_length r = strlen tag
    /\ occurs_at body tag (range_offset r).
End FurtherVocabulary.

(** Collaborators as [test_collaborators], with the answers to the uploads
    and the behaviour of the caller's functions given. *)
Definition collaborators_with (upload : nat -> UploadRequest -> result value)
    (reply : result value) (call : nat -> value -> value -> result value)
  : Collaborators :=
  {| userID := VStr "100";
     isReadableStream := fun v =>
       match v with
       | VObj props => truthy (lookup "readable" props)
       | _ => false
       end;
     postFormData := upload;
     post := fun _ => reply;
     settle_order := [];
     getGUID := fun k => "guid-" ++ string_of_Z (Z.of_nat k);
     Math_random := fun k => match k with O => 0 | S _ => 2 ^ 52 end;
     call_function := call;
     function_source := fun _ => "function () {}" |}.

(** A message with two streams and nothing else. *)
Definition two_streams : MessageObject :=
  {| msg_body := Some "look";
     msg_attachments := Some [a_stream; a_stream];
     msg_mentions := None;
     msg_url := VUndefined;
     msg_sticker := VUndefined |}.

(** The second upload is refused, the others accepted. *)
Definition refused_response : value := VObj [("error", VStr "File too large")].

Definition second_upload_refused (i : nat) (r : UploadRequest) : result value :=
  match i with
  | 1%nat => Ok refused_response
  | _ => Ok (upload_response (VStr ("media-" ++ string_of_Z (Z.of_nat i))))
  end.

(** Every upload is answered by [false]. *)
Definition uploads_answered_false (i : nat) (r : UploadRequest) : result value :=
  Ok (VBool false).

(** Callbacks that return [undefined], and callbacks that throw when they
    are given a result. *)
Definition returning (f : nat) (err data : value) : result value := Ok VUndefined.

Definition throwing_on_result (f : nat) (err data : value) : result value :=
  match err with
  | VNull => Throw (Error "cannot render the comment")
  | _ => Ok VUndefined
  end.

(** * The control server (unnamed/part_000)

    The server keeps two variables, [botProcess] and [botStatus], and
    changes them in the handlers of three routes and in the [close] handler
    it puts on every child process it spawns.  The handlers are functions
    from the state to the new state, the response and the calls made to the
    host (file system and child processes), whose answers are given by the
    host.  Output to the console is not recorded; the route [/config], which
    only reads files, and the [error] event of a child, for which the server
    has no handler, are not modelled. *)

(** A child process as the server holds it: which child it is, and its
    [pid] (a number, or [undefined] when the process could not start). *)
Record ChildProcess : Type := {
  child : nat;
  pid : value
}.

(** [botProcess] (by [None] when [null]) and [botStatus]. *)
Record Server : Type := {
  botProcess : option ChildProcess;
  botStatus : string
}.

Definition initial_server : Server :=
  {| botProcess := None; botStatus := "stopped" |}.

(** The answer to a request: [res.status(code).json(body)], or an exception
    that leaves the handler. *)
Inductive Response : Type :=
| Json (code : Z) (body : value)
| Uncaught (e : value).

(** The calls made to the host. *)
Inductive HostCall : Type :=
| WriteFile (path : string) (data : value)
| Kill (p : ChildProcess) (signal : string)
| Spawn (command : string) (args : list string) (cwd : string).

(** The host: the environment variables, [__dirname], [path.join],
    [JSON.stringify(obj, null, 2)] (a string, or [undefined]),
    [JSON.parse], and what [fs.writeFileSync], [spawn] (the [pid] of the new
    child) and [kill] answer or throw. *)
Class Host : Type := {
  env : string -> option string;
  dirname : string;
  path_join : string -> string -> string;
  JSON_stringify : value -> value;
  JSON_parse : string -> result value;
  writeFileSync : string -> value -> result unit;
  spawn : string -> list string -> string -> result value;
  kill : ChildProcess -> string -> result value
}.

(** What a handler did. *)
Record Handled : Type := {
  response : Response;
  server_after : Server;
  host_calls : list HostCall;
  spawned : option ChildProcess
}.

Section ControlServer.
Context {host : Host}.

(** [process.env.NAME || fallback] *)
Definition env_or (name fallback : string) : string :=
  match env name with
  | Some s => if String.eqb s "" then fallback else s
  | None => fallback
  end.

Definition BOT_MAIN : string := env_or "BOT_MAIN" "Rxabdullah.js".

Definition BOT_CWD : string := env_or "BOT_CWD" (path_join dirname "bot").

(** [writeJSONSafe]: the call it makes, and what comes of it. *)
Definition writeJSONSafe (filePath : string) (obj : value)
  : list HostCall * result unit :=
  let data := JSON_stringify obj in
  ([WriteFile filePath data], writeFileSync filePath data).

(** [res.status(500).json({ error: err.message })] *)
Definition error_response (err : value) : Response :=
  match get err "message" with
  | Ok message => Json 500 (VObj [("error", message)])
  | Throw e => Uncaught e
  end.

(** GET /status *)
Definition get_status (s : Server) : Response :=
  Json 200
    (VObj [("status", VStr (botStatus s));
           ("pid", match botProcess s with
                   | Some p => pid p
                   | None => VNull
                   end)]).

(** [const { name, prefix, adminUID, appstate } = req.body]: one property. *)
Definition destructure (body : value) (k : string) : result value :=
  match body with
  | VUndefined =>
      Throw (TypeError
        "Cannot destructure property 'name' of 'req.body' as it is undefined.")
  | VNull =>
      Throw (TypeError
        "Cannot destructure property 'name' of 'req.body' as it is null.")
  | _ => get body k
  end.

(** The appstate to save: a string is parsed, and kept when it cannot be. *)
Definition appstate_object (appstate : value) : value :=
  match appstate with
  | VStr text =>
      match JSON_parse text with
      | Ok parsed => parsed
      | Throw _ => appstate
      end
  | _ => appstate
  end.

(** The handler failed with [err] in state [s], after [calls]. *)
Definition failed (err : value) (s : Server) (calls : list HostCall) : Handled :=
  {| response := error_response err;
     server_after := s;
     host_calls := calls;
     spawned := None |}.

(** POST /activate; [fresh] names the child that [spawn] creates. *)
Definition activate (fresh : nat) (s : Server) (body : value) : Handled :=
  match destructure body "name" with
  | Throw err => failed err s []
  | Ok name =>
  match destructure body "prefix" with
  | Throw err => failed err s []
  | Ok prefix =>
  match destructure body "adminUID" with
  | Throw err => failed err s []
  | Ok adminUID =>
  match destructure body "appstate" with
  | Throw err => failed err s []
  | Ok appstate =>
      (* Save config *)
      let cfg := VObj [("name", name); ("prefix", prefix); ("adminUID", adminUID)] in
      let cfgPath := path_join dirname "config.json" in
      let '(calls1, written1) := writeJSONSafe cfgPath cfg in
      match written1 with
      | Throw err => failed err s calls1
      | Ok _ =>
          (* Save appstate *)
          let appstatePath := path_join dirname "appstate.json" in
          let appstateObj := appstate_object appstate in
          let '(calls2, written2) := writeJSONSafe appstatePath appstateObj in
          match written2 with
          | Throw err => failed err s (calls1 ++ calls2)
          | Ok _ =>
              (* Restart bot if already running *)
              let '(calls3, s3) :=
                match botProcess s with
                | Some p =>
                    ([Kill p "SIGTERM"],
                     {| botProcess := None; botStatus := "stopped" |})
                | None => ([], s)
                end in
              (* Spawn new bot process *)
              let fullBotPath := path_join BOT_CWD BOT_MAIN in
              let calls := (calls1 ++ calls2 ++ calls3
                            ++ [Spawn "node" [fullBotPath] BOT_CWD])%list in
              match spawn "node" [fullBotPath] BOT_CWD with
              | Throw err => failed err s3 calls
              | Ok new_pid =>
                  let p := {| child := fresh; pid := new_pid |} in
                  {| response :=
                       Json 200 (VObj [("status", VStr "started"); ("pid", new_pid)]);
                     server_after :=
                       {| botProcess := Some p; botStatus := "running" |};
                     host_calls := calls;
                     spawned := Some p |}
              end
          end
      end
  end end end end.

(** POST /stop *)
Definition stop (s : Server) : Handled :=
  match botProcess s with
  | None =>
      {| response := Json 200 (VObj [("status", VStr "not_running")]);
         server_after := s;
         host_calls := [];
         spawned := None |}
  | Some p =>
      match kill p "SIGTERM" with
      | Ok _ =>
          {| response := Json 200 (VObj [("status", VStr "stopped")]);
             server_after := {| botProcess := None; botStatus := "stopped" |};
             host_calls := [Kill p "SIGTERM"];
             spawned := None |}
      | Throw err => failed err s [Kill p "SIGTERM"]
      end
  end.

(** The [close] handler of a child: whatever the child. *)
Definition on_close (s : Server) : Server :=
  {| botProcess := None; botStatus := "stopped" |}.
End ControlServer.

(** What happens to the server: a request, or the [close] event of the
    child [k]. *)
Inductive ServerEvent : Type :=
| GetStatus
| PostActivate (body : value)
| PostStop
| ChildClosed (k : nat).

(** The server with its children: those spawned whose [close] event is
    still to come, and how many were spawned. *)
Record World : Type := {
  server : Server;
  children : list ChildProcess;
  spawns : nat
}.

Definition initial_world : World :=
  {| server := initial_server; children := []; spawns := 0 |}.

Definition is_child (k : nat) (p : ChildProcess) : bool := Nat.eqb (child p) k.

(** One event: the world after it, the response if it is a request, and the
    calls made to the host. *)
Definition step {host : Host} (w : World) (ev : ServerEvent)
  : World * option Response * list HostCall :=
  match ev with
  | GetStatus => (w, Some (get_status (server w)), [])
  | PostActivate body =>
      let h := activate (spawns w) (server w) body in
      ({| server := server_after h;
          children :=
            match spawned h with
            | Some p => p :: children w
            | None => children w
            end;
          spawns :=
            match spawned h with
            | Some _ => S (spawns w)
            | None => spawns w
            end |},
       Some (response h), host_calls h)
  | PostStop =>
      let h := stop (server w) in
      ({| server := server_after h; children := children w; spawns := spawns w |},
       Some (response h), host_calls h)
  | ChildClosed k =>
      ({| server := on_close (server w);
          children := filter (fun p => negb (is_child k p)) (children w);
          spawns := spawns w |},
       None, [])
  end.

(** A [close] event comes from a child that has not closed yet. *)
Definition can_happen (w : World) (ev : ServerEvent) : Prop :=
  match ev with
  | ChildClosed k => exists p, In p (children w) /\ child p = k
  | _ => True
  end.

(** The worlds the server can be in, whatever the host answers. *)
Inductive reachable : World -> Prop :=
| reachable_initial : reachable initial_world
| reachable_step (host : Host) (w : World) (ev : ServerEvent) :
    reachable w -> can_happen w ev -> reachable (fst (fst (step w ev))).

(** A host on which every call succeeds; the children get the pids 4000,
    4001, ... in the model of a run below. *)
Definition obliging_host (new_pid : Z) : Host :=
  {| env := fun _ => None;
     dirname := "/srv";
     path_join := fun a b => a ++ "/" ++ b;
     JSON_stringify := fun v => VStr "{}";
     JSON_parse := fun _ => Throw (js_error "SyntaxError" "Unexpected token");
     writeFileSync := fun _ _ => Ok tt;
     spawn := fun _ _ _ => Ok (VNum new_pid);
     kill := fun _ _ => Ok (VBool true) |}.

(** A host whose disk is full. *)
Definition full_disk_host : Host :=
  {| env := fun _ => None;
     dirname := "/srv";
     path_join := fun a b => a ++ "/" ++ b;
     JSON_stringify := fun v => VStr "{}";
     JSON_parse := fun _ => Throw (js_error "SyntaxError" "Unexpected token");
     writeFileSync := fun _ _ => Throw (Error "ENOSPC: no space left on device");
     spawn := fun _ _ _ => Ok (VNum 4000);
     kill := fun _ _ => Ok (VBool true) |}.

(** A host that cannot start a process. *)
Definition no_spawn_host : Host :=
  {| env := fun _ => None;
     dirname := "/srv";
     path_join := fun a b => a ++ "/" ++ b;
     JSON_stringify := fun v => VStr "{}";
     JSON_parse := fun _ => Throw (js_error "SyntaxError" "Unexpected token");
     writeFileSync := fun _ _ => Ok tt;
     spawn := fun _ _ _ => Throw (Error "spawn EAGAIN");
     kill := fun _ _ => Ok (VBool true) |}.

Definition activation_body : value :=
  VObj [("name", VStr "bot"); ("prefix", VStr "!"); ("adminUID", VStr "1");
        ("appstate", VArr [])].

(** The world after one activation on the obliging host. *)
Definition running_world : World :=
  fst (fst (@step (obliging_host 4000) initial_world (PostActivate activation_body))).

(** * Properties *)

Example base64_f : base64 (utf8 "f") = "Zg==". Proof. reflexivity. Qed.
Example base64_fo : base64 (utf8 "fo") = "Zm8=". Proof. reflexivity. Qed.
Example base64_foobar : base64 (utf8 "foobar") = "Zm9vYmFy". Proof. reflexivity. Qed.
Example base64_feedback :
  base64 (utf8 "feedback:123") = "ZmVlZGJhY2s6MTIz".
Proof. reflexivity. Qed.


(** ** Base64 loses nothing *)

Lemma In_below (n : nat) (x : N) : (x < N.of_nat n)%N -> In x (below n).
Proof.
  intros H. unfold below. apply in_map_iff. exists (N.to_nat x).
  split; [apply N2Nat.id|]. apply in_seq. lia.
Qed.

Lemma sextets_ok_all (a b : N) :
  (a < 256)%N -> (b < 256)%N -> sextets_ok a b = true.
Proof.
  intros Ha Hb.
  assert (H : forallb (fun a => forallb (sextets_ok a) (below 256)) (below 256) = true)
    by (vm_compute; reflexivity).
  rewrite forallb_forall in H. specialize (H a (In_below 256 a Ha)).
  rewrite forallb_forall in H. exact (H b (In_below 256 b Hb)).
Qed.

Lemma digit_ok_all (n : N) : (n < 64)%N -> digit_ok n = true.
Proof.
  intros Hn.
  assert (H : forallb digit_ok (below 64) = true) by (vm_compute; reflexivity).
  rewrite forallb_forall in H. exact (H n (In_below 64 n Hn)).
Qed.

Lemma base64_value_digit (n : N) :
  (n < 64)%N ->
  base64_value (base64_digit n) = Some n /\ is_padding (base64_digit n) = false.
Proof.
  intros Hn. pose proof (digit_ok_all n Hn) as H. unfold digit_ok in H.
  destruct (base64_value (base64_digit n)) as [m|]; [|discriminate].
  apply andb_true_iff in H. destruct H as [H1 H2].
  apply N.eqb_eq in H1. apply negb_true_iff in H2. subst. auto.
Qed.

(** What [sextets_ok] checks, as equations. *)
Lemma sextets (a b : N) :
  (a < 256)%N -> (b < 256)%N ->
  let s0 := N.shiftr a 2 in
  let s1 := N.lor (N.shiftl (N.land a 3) 4) (N.shiftr b 4) in
  let s2 := N.lor (N.shiftl (N.land a 15) 2) (N.shiftr b 6) in
  let s3 := N.land b 63 in
  ((s0 < 64)%N /\ (s1 < 64)%N /\ (s2 < 64)%N /\ (s3 < 64)%N)
  /\ N.lor (N.shiftl s0 2) (N.shiftr s1 4) = a
  /\ N.land s1 15 = N.shiftr b 4
  /\ N.shiftr s2 2 = N.land a 15
  /\ N.lor (N.shiftl (N.shiftr a 4) 4) (N.land a 15) = a
  /\ N.lor (N.shiftl (N.land s2 3) 6) s3 = b.
Proof.
  intros Ha Hb. pose proof (sextets_ok_all a b Ha Hb) as H.
  unfold sextets_ok in H.
  repeat (apply andb_true_iff in H; destruct H as [H ?]).
  repeat match goal with
         | H : (_ <? _)%N = true |- _ => apply N.ltb_lt in H
         | H : (_ =? _)%N = true |- _ => apply N.eqb_eq in H
         end.
  cbv zeta. auto 10.
Qed.

Lemma list_ind3 {A : Type} (P : list A -> Prop) :
  P [] -> (forall a, P [a]) -> (forall a b, P [a; b]) ->
  (forall a b c rest, P rest -> P (a :: b :: c :: rest)) ->
  forall l, P l.
Proof.
  intros H0 H1 H2 H3. fix IH 1.
  intros [|a [|b [|c rest]]];
    [exact H0 | apply H1 | apply H2 | apply H3; apply IH].
Qed.

(** Decoding the encoding of bytes gives the bytes back. *)
Lemma base64_decode_encode (bytes : list N) :
  Forall (fun b => (b < 256)%N) bytes ->
  base64_decode (base64 bytes) = Some bytes.
Proof.
  induction bytes as [|a|a b|a b c rest IH] using list_ind3; intros Hall.
  - reflexivity.
  - inversion Hall as [|? ? Ha _]; subst.
    destruct (sextets a 0 Ha) as ((L0 & L1 & _) & E0 & _); [lia|].
    rewrite N.shiftr_0_l, N.lor_0_r in L1, E0.
    cbn [base64 base64_decode].
    destruct (base64_value_digit _ L0) as [-> _].
    destruct (base64_value_digit _ L1) as [-> _].
    rewrite E0. reflexivity.
  - inversion Hall as [|? ? Ha Hall']; subst.
    inversion Hall' as [|? ? Hb _]; subst.
    destruct (sextets a b Ha Hb) as ((L0 & L1 & _) & E0 & E1 & _).
    destruct (sextets b 0 Hb) as ((_ & _ & L2 & _) & _ & _ & E2 & E3 & _); [lia|].
    rewrite N.shiftr_0_l, N.lor_0_r in L2, E2.
    cbn [base64 base64_decode].
    destruct (base64_value_digit _ L0) as [-> _].
    destruct (base64_value_digit _ L1) as [-> _].
    destruct (base64_value_digit _ L2) as [-> ->].
    rewrite E0, E1, E2, E3. reflexivity.
  - inversion Hall as [|? ? Ha Hall']; subst.
    inversion Hall' as [|? ? Hb Hall'']; subst.
    inversion Hall'' as [|? ? Hc Hrest]; subst.
    destruct (sextets a b Ha Hb) as ((L0 & L1 & _) & E0 & E1 & _).
    destruct (sextets b c Hb Hc) as ((_ & _ & L2 & L3) & _ & _ & E2 & E3 & E4).
    cbn [base64 base64_decode].
    destruct (base64_value_digit _ L0) as [-> _].
    destruct (base64_value_digit _ L1) as [-> _].
    destruct (base64_value_digit _ L2) as [-> ->].
    destruct (base64_value_digit _ L3) as [-> ->].
    rewrite (IH Hrest), E0, E1, E2, E3, E4. reflexivity.
Qed.

Lemma utf8_bytes (s : string) : Forall (fun b => (b < 256)%N) (utf8 s).
Proof.
  induction s as [|c s IH]; simpl; [constructor|].
  apply Forall_app. split; [|exact IH].
  assert (H : forallb (fun b => (b <? 256)%N) (utf8_of_char c) = true)
    by (destruct c as [[] [] [] [] [] [] [] []]; reflexivity).
  rewrite forallb_forall in H. apply Forall_forall.
  intros x Hx. apply N.ltb_lt. exact (H x Hx).
Qed.

(** The encoded feedback identifier decodes to the bytes of its string. *)
Lemma base64_utf8_decodes (s : string) :
  base64_decode (base64 (utf8 s)) = Some (utf8 s).
Proof. apply base64_decode_encode, utf8_bytes. Qed.

(** ** Events of a run *)

Lemma callbacks_app (l1 l2 : list Event) :
  callbacks (l1 ++ l2) = (callbacks l1 ++ callbacks l2)%list.
Proof.
  induction l1 as [|e l1 IH]; simpl; [reflexivity|].
  destruct e; simpl; rewrite IH; reflexivity.
Qed.

Lemma upload_requests_app (l1 l2 : list Event) :
  upload_requests (l1 ++ l2) = (upload_requests l1 ++ upload_requests l2)%list.
Proof.
  induction l1 as [|e l1 IH]; simpl; [reflexivity|].
  destruct e; simpl; rewrite IH; reflexivity.
Qed.

Lemma submitted_forms_app (l1 l2 : list Event) :
  submitted_forms (l1 ++ l2) = (submitted_forms l1 ++ submitted_forms l2)%list.
Proof.
  induction l1 as [|e l1 IH]; simpl; [reflexivity|].
  destruct e; simpl; rewrite IH; reflexivity.
Qed.

Lemma callbacks_uploads (l : list UploadRequest) : callbacks (map EUpload l) = [].
Proof. induction l; simpl; auto. Qed.

Lemma submitted_forms_uploads (l : list UploadRequest) :
  submitted_forms (map EUpload l) = [].
Proof. induction l; simpl; auto. Qed.

Lemma upload_requests_uploads (l : list UploadRequest) :
  upload_requests (map EUpload l) = l.
Proof. induction l; simpl; congruence. Qed.

Lemma callbacks_submits (l : list MutationRequest) : callbacks (map ESubmit l) = [].
Proof. induction l; simpl; auto. Qed.

Lemma upload_requests_submits (l : list MutationRequest) :
  upload_requests (map ESubmit l) = [].
Proof. induction l; simpl; auto. Qed.

Section Completion.
Context {collaborators : Collaborators}.

Lemma on_rejected_calls (callback : Completion) (err : value) :
  callbacks (fst (on_rejected callback err Pending)) = [(err, VUndefined)]
  /\ upload_requests (fst (on_rejected callback err Pending)) = []
  /\ submitted_forms (fst (on_rejected callback err Pending)) = []
  /\ snd (on_rejected callback err Pending) = settled_by callback err VUndefined.
Proof.
  unfold on_rejected, invoke, settled_by.
  destruct callback as [|f]; simpl.
  - destruct (truthy err); auto.
  - destruct (call_function f err VUndefined); simpl; auto.
Qed.

Lemma on_fulfilled_requests (callback : Completion) (info : value) :
  upload_requests (fst (on_fulfilled callback info Pending)) = []
  /\ submitted_forms (fst (on_fulfilled callback info Pending)) = [].
Proof.
  unfold on_fulfilled, on_rejected, invoke.
  destruct callback as [|f]; simpl; auto.
  destruct (call_function f VNull info) as [v|e]; simpl; auto.
  destruct (call_function f e VUndefined); simpl; auto.
Qed.

Lemma on_fulfilled_calls (callback : Completion) (info : value) :
  returns_normally callback ->
  callbacks (fst (on_fulfilled callback info Pending)) = [(VNull, info)]
  /\ snd (on_fulfilled callback info Pending) = settled_by callback VNull info.
Proof.
  unfold on_fulfilled, invoke, settled_by, returns_normally.
  destruct callback as [|f]; simpl; intros H; auto.
  destruct (H VNull info) as [v ->]. simpl. auto.
Qed.
End Completion.

(** ** The entry point, case by case *)

Section EntryPoint.
Context {collaborators : Collaborators}.

Lemma typeof_string (v : value) : typeof v = TString -> exists s, v = VStr s.
Proof. destruct v; simpl; try discriminate. eauto. Qed.

Lemma jstype_eqb_eq (a b : jstype) : jstype_eqb a b = true <-> a = b.
Proof. destruct a, b; simpl; split; congruence. Qed.

Lemma jstype_eqb_neq (a b : jstype) : jstype_eqb a b = false <-> a <> b.
Proof. destruct a, b; simpl; split; congruence. Qed.

Lemma typeof_string_dec (v : value) :
  (exists s, v = VStr s) \/ ~ (exists s, v = VStr s).
Proof. destruct v; eauto; right; intros [s H]; discriminate. Qed.

Lemma typeof_msg_dec (msg : MsgArg) :
  (typeof_msg msg = TString \/ typeof_msg msg = TObject)
  \/ ~ (typeof_msg msg = TString \/ typeof_msg msg = TObject).
Proof. destruct msg; simpl; auto; right; intros [H | H]; discriminate. Qed.

(** A call that passes validation and whose message can be prepared. *)
Lemma createCommentPost_valid (st : State) (msg : MsgArg) (p : string)
    (replyCommentID : value) (callback : option nat) (m : MessageObject) :
  typeof_msg msg = TString \/ typeof_msg msg = TObject ->
  prepare msg = Ok m ->
  let reply := fst (optional_parameters replyCommentID callback) in
  let cb := snd (optional_parameters replyCommentID callback) in
  let form := build_form st m (VStr p) reply in
  let sub :=
    match snd (handleUpload m form) with
    | Throw e => ([], Throw e)
    | Ok form => merge_and_submit m form
    end in
  let fin :=
    match snd sub with
    | Ok info => on_fulfilled cb info Pending
    | Throw err => on_rejected cb err Pending
    end in
  createCommentPost st msg (VStr p) replyCommentID callback =
  ({| outcome := Returns RetPromise;
      during_call := map EUpload (fst (handleUpload m form));
      after_call := (map ESubmit (fst sub) ++ fst fin)%list;
      promise := snd fin |}, after_build st).
Proof.
  intros Hty Hprep. unfold createCommentPost.
  destruct (optional_parameters replyCommentID callback) as [reply cb]. simpl.
  replace (negb (jstype_eqb (typeof_msg msg) TString)
           && negb (jstype_eqb (typeof_msg msg) TObject)) with false
    by (destruct Hty as [-> | ->]; reflexivity).
  rewrite Hprep.
  destruct (handleUpload m (build_form st m (VStr p) reply)) as [uploads uploaded].
  simpl.
  destruct (match uploaded with
            | Ok form => merge_and_submit m form
            | Throw e => ([], Throw e)
            end) as [submits settled].
  simpl.
  destruct (match settled with
            | Ok info => on_fulfilled cb info Pending
            | Throw err => on_rejected cb err Pending
            end) as [calls pr].
  reflexivity.
Qed.

(** A call whose message is neither a string nor an object, or whose
    [postID] is not a string. *)
Lemma createCommentPost_invalid (st : State) (msg : MsgArg)
    (postID replyCommentID : value) (callback : option nat) :
  (typeof_msg msg <> TString /\ typeof_msg msg <> TObject)
  \/ typeof postID <> TString ->
  exists message,
    (message = "Message must be a string or an object."
     \/ message = "postID must be a string.")
    /\ createCommentPost st msg postID replyCommentID callback =
       fail_validation (snd (optional_parameters replyCommentID callback)) message st.
Proof.
  intros H. unfold createCommentPost.
  destruct (optional_parameters replyCommentID callback) as [reply cb]. simpl.
  destruct (negb (jstype_eqb (typeof_msg msg) TString)
            && negb (jstype_eqb (typeof_msg msg) TObject)) eqn:Hmsg.
  - eexists. split; [left; reflexivity | reflexivity].
  - destruct (negb (jstype_eqb (typeof postID) TString)) eqn:Hpost.
    + eexists. split; [right; reflexivity | reflexivity].
    + exfalso. destruct H as [[H1 H2] | H].
      * apply jstype_eqb_neq in H1, H2. rewrite H1, H2 in Hmsg. discriminate.
      * apply jstype_eqb_neq in H. rewrite H in Hpost. discriminate.
Qed.

Lemma fail_validation_run (cb : Completion) (message : string) (st : State) :
  let r := fst (fail_validation cb message st) in
  during_call r = [ECallback (validation_error message) VUndefined]
  /\ after_call r = []
  /\ promise r = settled_by cb (validation_error message) VUndefined
  /\ snd (fail_validation cb message st) = st.
Proof.
  unfold fail_validation, invoke, settled_by.
  destruct cb as [|f]; simpl; auto.
Qed.

(** The forms submitted by a call that passes validation. *)
Lemma submitted_forms_valid (st : State) (msg : MsgArg) (p : string)
    (replyCommentID : value) (callback : option nat) (m : MessageObject) :
  typeof_msg msg = TString \/ typeof_msg msg = TObject ->
  prepare msg = Ok m ->
  submitted_forms
    (events (fst (createCommentPost st msg (VStr p) replyCommentID callback))) =
  match assemble m (build_form st m (VStr p)
                      (fst (optional_parameters replyCommentID callback))) with
  | Ok form => [form]
  | Throw _ => []
  end.
Proof.
  intros Hty Hprep.
  rewrite (createCommentPost_valid st msg p replyCommentID callback m Hty Hprep).
  unfold events, assemble. simpl.
  rewrite !submitted_forms_app, submitted_forms_uploads. simpl.
  set (form := build_form st m (VStr p) _).
  destruct (snd (handleUpload m form)) as [form1|e]; simpl.
  - unfold merge_and_submit.
    destruct (handleMentions m (handleURL m form1)) as [form2|e]; simpl.
    + destruct (post (mutation_request (handleSticker m form2))) as [res|e]; simpl.
      * destruct (createContent_result res) as [info|e]; simpl.
        -- destruct (on_fulfilled_requests
                       (snd (optional_parameters replyCommentID callback)) info)
             as [_ ->]. reflexivity.
        -- destruct (on_rejected_calls
                       (snd (optional_parameters replyCommentID callback)) e)
             as (_ & _ & -> & _). reflexivity.
      * destruct (on_rejected_calls
                    (snd (optional_parameters replyCommentID callback)) e)
          as (_ & _ & -> & _). reflexivity.
    + destruct (on_rejected_calls
                  (snd (optional_parameters replyCommentID callback)) e)
        as (_ & _ & -> & _). reflexivity.
  - destruct (on_rejected_calls
                (snd (optional_parameters replyCommentID callback)) e)
      as (_ & _ & -> & _). reflexivity.
Qed.

(** Whatever the call, a form it submits is the one assembled from a
    prepared message and a string [postID]. *)
Lemma submitted_form_inv (st : State) (msg : MsgArg)
    (postID replyCommentID : value) (callback : option nat) (form : Form) :
  In form (submitted_forms
             (events (fst (createCommentPost st msg postID replyCommentID callback)))) ->
  exists m p,
    postID = VStr p
    /\ (typeof_msg msg = TString \/ typeof_msg msg = TObject)
    /\ prepare msg = Ok m
    /\ assemble m (build_form st m postID
                     (fst (optional_parameters replyCommentID callback))) = Ok form.
Proof.
  intros Hin.
  destruct (jstype_eqb (typeof postID) TString) eqn:Hpost.
  2:{ apply jstype_eqb_neq in Hpost.
      destruct (createCommentPost_invalid st msg postID replyCommentID callback
                  (or_intror Hpost)) as (message & _ & E).
      rewrite E in Hin.
      destruct (fail_validation_run
                  (snd (optional_parameters replyCommentID callback)) message st)
        as (Hd & Ha & _).
      unfold events in Hin. rewrite Hd, Ha in Hin. simpl in Hin. contradiction. }
  apply jstype_eqb_eq in Hpost. destruct (typeof_string _ Hpost) as [p ->].
  destruct (jstype_eqb (typeof_msg msg) TString) eqn:H1;
    [|destruct (jstype_eqb (typeof_msg msg) TObject) eqn:H2].
  3:{ apply jstype_eqb_neq in H1, H2.
      destruct (createCommentPost_invalid st msg (VStr p) replyCommentID callback
                  (or_introl (conj H1 H2))) as (message & _ & E).
      rewrite E in Hin.
      destruct (fail_validation_run
                  (snd (optional_parameters replyCommentID callback)) message st)
        as (Hd & Ha & _).
      unfold events in Hin. rewrite Hd, Ha in Hin. simpl in Hin. contradiction. }
  all: assert (Hty : typeof_msg msg = TString \/ typeof_msg msg = TObject)
         by (first [left; apply jstype_eqb_eq; assumption
                   | right; apply jstype_eqb_eq; assumption]).
  all: destruct (prepare msg) as [m|e] eqn:Hprep.
  all: try (rewrite (submitted_forms_valid st msg p replyCommentID callback m Hty Hprep)
             in Hin;
            exists m, p; repeat split; auto;
            destruct (assemble m _) as [f|?]; simpl in Hin;
            [destruct Hin as [-> | []]; reflexivity | contradiction]).
  all: exfalso; revert Hin; unfold createCommentPost;
    destruct (optional_parameters replyCommentID callback) as [reply cb]; simpl;
    destruct msg; simpl in *; try discriminate; simpl; auto.
Qed.
End EntryPoint.

(** ** Validation *)

Section Validation.
Context {collaborators : Collaborators}.

(** C7: for every [postID] that is not of string type, with any message,
    the call ends in its validation: the completion callback is called
    once, before the call returns, with a validation error object
    [{error: message}]; nothing happens after the call and no upload or
    mutation request is issued; without a caller's callback the promise is
    rejected with the same error. *)
Theorem non_string_postID_fails_validation (st : State) (msg : MsgArg)
    (postID replyCommentID : value) (callback : option nat) :
  typeof postID <> TString ->
  let r := fst (createCommentPost st msg postID replyCommentID callback) in
  exists message,
    (message = "Message must be a string or an object."
     \/ message = "postID must be a string.")
    /\ during_call r = [ECallback (validation_error message) VUndefined]
    /\ after_call r = []
    /\ upload_requests (events r) = []
    /\ submitted_forms (events r) = []
    /\ promise r =
         settled_by (snd (optional_parameters replyCommentID callback))
           (validation_error message) VUndefined.
Proof.
  intros Hpost r.
  destruct (createCommentPost_invalid st msg postID replyCommentID callback
              (or_intror Hpost)) as (message & Hmsg & E).
  exists message. split; [exact Hmsg|].
  subst r. rewrite E.
  destruct (fail_validation_run
              (snd (optional_parameters replyCommentID callback)) message st)
    as (Hd & Ha & Hp & _).
  unfold events. rewrite Hd, Ha, Hp. simpl. auto.
Qed.

(** C8: a string message [s] and the message object [{body: s}] give the
    same call: same events (requests, forms, callback calls), same return
    value, same final promise state, same draws. *)
Theorem string_message_is_body_only_object (st : State) (s p : string)
    (replyCommentID : value) (callback : option nat) :
  createCommentPost st (MsgString s) (VStr p) replyCommentID callback =
  createCommentPost st (MsgObject (body_only s)) (VStr p) replyCommentID callback.
Proof. reflexivity. Qed.

(** C10: a [null] message with a string [postID] passes the validation and
    makes the call throw a TypeError while the defaults are assigned: no
    callback call, no request, and the promise, which is not returned,
    stays pending; and a falsy sticker (0, the empty string, false, as well
    as null and undefined) leaves the form as it is. *)
Theorem null_message_throws_and_falsy_sticker_is_absent :
  (forall (st : State) (p : string) (replyCommentID : value) (callback : option nat),
      createCommentPost st MsgNull (VStr p) replyCommentID callback =
      ({| outcome :=
            Throws (TypeError "Cannot read properties of null (reading 'mentions')");
          during_call := [];
          after_call := [];
          promise := Pending |}, st))
  /\ (forall (m : MessageObject) (form : Form),
        truthy (msg_sticker m) = false -> handleSticker m form = form).
Proof.
  split.
  - intros st p replyCommentID callback. unfold createCommentPost.
    destruct (optional_parameters replyCommentID callback) as [reply cb].
    reflexivity.
  - intros m form H. unfold handleSticker. rewrite H. reflexivity.
Qed.
End Validation.

(** ** Searching a string *)

Lemma prefix_append (tag s : string) :
  String.prefix tag s = true <-> exists after, s = tag ++ after.
Proof.
  revert s. induction tag as [|a tag IH]; intros s; simpl.
  - destruct s; split; eauto.
  - destruct s as [|b s]; simpl.
    + split; [discriminate | intros [after H]; discriminate].
    + destruct (ascii_dec a b) as [->|Hab].
      * rewrite IH. split; intros [after H]; exists after; congruence.
      * split; [discriminate | intros [after H]; congruence].
Qed.

Lemma skip_append (before s : string) :
  skip (String.length before) (before ++ s) = s.
Proof. induction before; simpl; auto. Qed.

Lemma skip_split (n : nat) (s : string) :
  (n <= String.length s)%nat ->
  exists before, s = before ++ skip n s /\ String.length before = n.
Proof.
  revert s. induction n as [|n IH]; intros s Hn.
  - exists "". auto.
  - destruct s as [|c s]; simpl in *; [lia|].
    destruct (IH s) as (before & E & L); [lia|].
    exists (String c before). simpl. split; congruence.
Qed.

Lemma occurs_0 (s tag : string) : occurs s tag 0 <-> String.prefix tag s = true.
Proof.
  rewrite prefix_append. split.
  - intros (before & after & E & L). destruct before; [|discriminate].
    exists after. exact E.
  - intros [after E]. exists "", after. auto.
Qed.

Lemma occurs_S (c : ascii) (s tag : string) (d : nat) :
  occurs (String c s) tag (S d) <-> occurs s tag d.
Proof.
  split; intros (before & after & E & L).
  - destruct before as [|b before]; [discriminate|]. simpl in *.
    exists before, after. split; congruence.
  - exists (String c before), after. simpl. split; congruence.
Qed.

Lemma occurs_empty (tag : string) (d : nat) : occurs "" tag (S d) -> False.
Proof. intros (before & after & E & L). destruct before; discriminate. Qed.

Lemma occurs_bound (s tag : string) (d : nat) :
  occurs s tag d -> (d + String.length tag <= String.length s)%nat.
Proof.
  intros (before & after & -> & <-).
  assert (forall a b, String.length (a ++ b) = (String.length a + String.length b)%nat)
    as L by (induction a; simpl; intros; auto).
  rewrite !L. lia.
Qed.

Lemma index_from_spec (tag s : string) (k : nat) :
  match index_from tag s k with
  | Some j =>
      exists d, j = (k + d)%nat /\ occurs s tag d
                /\ forall d', (d' < d)%nat -> ~ occurs s tag d'
  | None => forall d, ~ occurs s tag d
  end.
Proof.
  revert k. induction s as [|c s IH]; intros k; cbn [index_from].
  - destruct (String.prefix tag "") eqn:P.
    + exists 0%nat. rewrite occurs_0. repeat split; auto; lia.
    + intros [|d] H; [apply occurs_0 in H; congruence | eapply occurs_empty; eauto].
  - destruct (String.prefix tag (String c s)) eqn:P.
    + exists 0%nat. rewrite occurs_0. repeat split; auto; lia.
    + specialize (IH (S k)). destruct (index_from tag s (S k)) as [j|].
      * destruct IH as (d & -> & Hocc & Hmin). exists (S d).
        rewrite occurs_S. repeat split; [lia | exact Hocc |].
        intros [|d'] Hlt H; [apply occurs_0 in H; congruence|].
        apply occurs_S in H. apply (Hmin d'); [lia | exact H].
      * intros [|d] H; [apply occurs_0 in H; congruence|].
        apply occurs_S in H. exact (IH d H).
Qed.

Lemma occurs_skip (n : nat) (s tag : string) (d : nat) :
  (n <= String.length s)%nat ->
  occurs (skip n s) tag d <-> occurs s tag (n + d).
Proof.
  revert s. induction n as [|n IH]; intros s Hn; simpl; [tauto|].
  destruct s as [|c s]; simpl in *; [lia|].
  rewrite occurs_S. apply IH. lia.
Qed.

Lemma occurs_at_nat (body tag : string) (k : Z) :
  occurs_at body tag k <-> 0 <= k /\ occurs body tag (Z.to_nat k).
Proof.
  unfold occurs_at, occurs, strlen. split.
  - intros (before & after & E & <-). split; [lia|].
    exists before, after. split; [exact E | lia].
  - intros (Hk & before & after & E & L). exists before, after.
    split; [exact E | lia].
Qed.

(** What [indexOf] returns: the first occurrence from the clamped start, or
    -1 when there is none. *)
Lemma indexOf_spec (body tag : string) (pos : Z) :
  let start := Z.min (Z.max pos 0) (strlen body) in
  (0 <= indexOf body tag pos /\ first_occurrence body tag start (indexOf body tag pos))
  \/ (indexOf body tag pos = -1 /\ forall k, start <= k -> ~ occurs_at body tag k).
Proof.
  intros start. unfold indexOf. fold start.
  assert (Hs : (Z.to_nat start <= String.length body)%nat)
    by (unfold start, strlen; lia).
  assert (H0 : 0 <= start) by (unfold start, strlen; lia).
  pose proof (index_from_spec tag (skip (Z.to_nat start) body) (Z.to_nat start)) as H.
  destruct (index_from tag (skip (Z.to_nat start) body) (Z.to_nat start)) as [j|].
  - left. destruct H as (d & -> & Hocc & Hmin). split; [lia|].
    apply occurs_skip in Hocc; [|exact Hs].
    repeat split.
    + lia.
    + apply occurs_at_nat. split; [lia|]. rewrite Nat2Z.id. exact Hocc.
    + intros j Hj Hoc. apply occurs_at_nat in Hoc. destruct Hoc as [_ Hoc].
      apply (Hmin (Z.to_nat j - Z.to_nat start)%nat); [lia|].
      apply occurs_skip; [exact Hs|].
      replace (Z.to_nat start + (Z.to_nat j - Z.to_nat start))%nat with (Z.to_nat j)
        by lia.
      exact Hoc.
  - right. split; [reflexivity|]. intros k Hk Hoc.
    apply occurs_at_nat in Hoc. destruct Hoc as [_ Hoc].
    apply (H (Z.to_nat k - Z.to_nat start)%nat).
    apply occurs_skip; [exact Hs|].
    replace (Z.to_nat start + (Z.to_nat k - Z.to_nat start))%nat with (Z.to_nat k)
      by lia.
    exact Hoc.
Qed.

Lemma occurs_at_bound (body tag : string) (k : Z) :
  occurs_at body tag k -> 0 <= k /\ k + strlen tag <= strlen body.
Proof.
  intros H. apply occurs_at_nat in H. destruct H as [H0 H].
  apply occurs_bound in H. unfold strlen. lia.
Qed.

Lemma indexOf_empty (body : string) (pos : Z) :
  indexOf body "" pos = Z.min (Z.max pos 0) (strlen body).
Proof.
  unfold indexOf.
  assert (H : forall s k, index_from "" s k = Some k) by (intros [|c s] k; reflexivity).
  rewrite H. unfold strlen. lia.
Qed.

(** ** Mentions *)

Section Mentions.
Context {collaborators : Collaborators}.

Lemma strlen_pos (tag : string) : tag <> "" -> 0 < strlen tag.
Proof. destruct tag; [congruence|]. unfold strlen. simpl. lia. Qed.

(** One mention, against a body text. *)
Lemma handleMention_spec (body : string) (item : Mention) (form : Form) :
  exists rs,
    mention_ranges body item rs
    /\ handleMention (Some body) item form = Ok (fold_left push_range rs form).
Proof.
  unfold handleMention.
  destruct (mention_tag item) as [| |b|n|tag|f|l|o] eqn:Htag;
    try (exists []; split; [apply mention_malformed; left; rewrite Htag; discriminate
                          | reflexivity]).
  destruct (truthy (mention_id item)) eqn:Hid; simpl.
  2:{ exists []. split; [apply mention_malformed; right; exact Hid | reflexivity]. }
  fold (search_start item).
  destruct (string_dec tag "") as [->|Hne].
  { rewrite indexOf_empty.
    replace (Z.min (Z.max (search_start item) 0) (strlen body) <? 0) with false
      by (symmetry; apply Z.ltb_ge; unfold strlen; lia).
    exists [{| range_entity_id := mention_id item;
               range_length := strlen "";
               range_offset := Z.min (Z.max (search_start item) 0) (strlen body) |}].
    split; [apply mention_empty_tag; assumption | reflexivity]. }
  pose proof (strlen_pos tag Hne) as Hlen.
  destruct (indexOf_spec body tag (search_start item))
    as [[Hk (Hge & Hocc & Hmin)] | [Hk Hnone]].
  - replace (indexOf body tag (search_start item) <? 0) with false
      by (symmetry; apply Z.ltb_ge; exact Hk).
    exists [{| range_entity_id := mention_id item;
               range_length := strlen tag;
               range_offset := indexOf body tag (search_start item) |}].
    split; [|reflexivity].
    apply mention_found with (tag := tag); auto.
    pose proof (occurs_at_bound _ _ _ Hocc) as [_ Hb].
    repeat split.
    + lia.
    + exact Hocc.
    + intros j Hj Hoc. pose proof (occurs_at_bound _ _ _ Hoc) as [Hj0 _].
      apply (Hmin j); [lia | exact Hoc].
  - rewrite Hk. simpl.
    exists []. split; [|reflexivity].
    apply mention_not_found with (tag := tag); auto.
    intros k Hge Hoc. pose proof (occurs_at_bound _ _ _ Hoc) as [Hk0 Hb].
    apply (Hnone k); [lia | exact Hoc].
Qed.

Lemma handleMentions_loop_spec (body : string) (items : list Mention) (form : Form) :
  exists groups,
    Forall2 (mention_ranges body) items groups
    /\ handleMentions_loop (Some body) items form =
       Ok (fold_left push_range (List.concat groups) form).
Proof.
  revert form. induction items as [|item items IH]; intros form.
  - exists []. split; [constructor | reflexivity].
  - destruct (handleMention_spec body item form) as (rs & Hrs & E).
    destruct (IH (fold_left push_range rs form)) as (groups & Hgroups & E').
    exists (rs :: groups). split; [constructor; assumption|].
    simpl. rewrite E. simpl. rewrite E'. rewrite fold_left_app. reflexivity.
Qed.

(** Without a body, the first mention whose tag is searched makes the handler
    throw: [msg.body] is read as it is, where the form takes [body || '']. *)
Lemma handleMention_without_body (item : Mention) (form : Form) :
  searched item = true ->
  handleMention None item form =
  Throw (TypeError "Cannot read properties of undefined (reading 'indexOf')").
Proof.
  unfold searched, handleMention. intros H.
  destruct (mention_tag item); try discriminate.
  rewrite H. reflexivity.
Qed.

(** The mentions of a message with a body text are processed in order, and
    each adds to the range list what the specification says: a
    non-empty string tag with an id (a truthy one) that occurs at or after
    [fromIndex] (0 by default) adds [{entity: {id}, length: tag.length,
    offset}] at its first such occurrence; a tag that is not a string, a
    missing id or a tag that does not occur adds nothing; the handler does
    not fail.  A mention whose tag is not a string or whose id is missing
    is passed over whatever the body.  With body [hello world] and the
    mention [{tag: world, id: 42}] the range added is
    [{entity: {id: 42}, length: 5, offset: 6}]. *)
Theorem mentions_become_ranges :
  (forall (body : string) (items : list Mention) (atts : option (list value))
          (url sticker : value) (form : Form),
      exists groups,
        Forall2 (mention_ranges body) items groups
        /\ handleMentions
             {| msg_body := Some body;
                msg_attachments := atts;
                msg_mentions := Some items;
                msg_url := url;
                msg_sticker := sticker |} form =
           Ok (fold_left push_range (List.concat groups) form))
  /\ (forall (body : option string) (item : Mention) (form : Form),
        typeof (mention_tag item) <> TString \/ truthy (mention_id item) = false ->
        handleMention body item form = Ok form)
  /\ (forall (form : Form),
        handleMentions
          {| msg_body := Some "hello world";
             msg_attachments := None;
             msg_mentions :=
               Some [{| mention_tag := VStr "world";
                        mention_id := VStr "42";
                        mention_fromIndex := None |}];
             msg_url := VUndefined;
             msg_sticker := VUndefined |} form =
        Ok (push_range form
              {| range_entity_id := VStr "42";
                 range_length := 5;
                 range_offset := 6 |})).
Proof.
  split.
  - intros body items atts url sticker form. unfold handleMentions. simpl.
    apply handleMentions_loop_spec.
  - split; [|intros form; reflexivity].
    intros body item form H. unfold handleMention.
    destruct (mention_tag item); try reflexivity.
    destruct H as [H | H]; [exfalso; apply H; reflexivity|].
    rewrite H. reflexivity.
Qed.
End Mentions.

(** ** Assembly of the form *)

Section Assembly.
Context {collaborators : Collaborators}.

Lemma push_attachment_lists (form : Form) (d : Descriptor) :
  attachments (input (push_attachment form d)) = (attachments (input form) ++ [d])%list
  /\ ranges (message (input (push_attachment form d))) = ranges (message (input form))
  /\ skeleton (push_attachment form d) = skeleton form.
Proof. repeat split. Qed.

Lemma push_range_lists (form : Form) (r : Range) :
  attachments (input (push_range form r)) = attachments (input form)
  /\ ranges (message (input (push_range form r))) =
     (ranges (message (input form)) ++ [r])%list
  /\ skeleton (push_range form r) = skeleton form.
Proof. repeat split. Qed.

Lemma push_attachments_lists (l : list Descriptor) (form : Form) :
  attachments (input (fold_left push_attachment l form)) =
    (attachments (input form) ++ l)%list
  /\ ranges (message (input (fold_left push_attachment l form))) =
     ranges (message (input form))
  /\ skeleton (fold_left push_attachment l form) = skeleton form.
Proof.
  revert form. induction l as [|d l IH]; intros form; simpl.
  - rewrite app_nil_r. auto.
  - destruct (IH (push_attachment form d)) as (-> & -> & ->).
    destruct (push_attachment_lists form d) as (-> & -> & ->).
    rewrite <- app_assoc. auto.
Qed.

Lemma push_ranges_lists (l : list Range) (form : Form) :
  attachments (input (fold_left push_range l form)) = attachments (input form)
  /\ ranges (message (input (fold_left push_range l form))) =
     (ranges (message (input form)) ++ l)%list
  /\ skeleton (fold_left push_range l form) = skeleton form.
Proof.
  revert form. induction l as [|d l IH]; intros form; simpl.
  - rewrite app_nil_r. auto.
  - destruct (IH (push_range form d)) as (-> & -> & ->).
    destruct (push_range_lists form d) as (-> & -> & ->).
    rewrite <- app_assoc. auto.
Qed.

Lemma handleURL_lists (m : MessageObject) (form : Form) :
  attachments (input (handleURL m form)) =
    (attachments (input form) ++ url_descriptor m)%list
  /\ ranges (message (input (handleURL m form))) = ranges (message (input form))
  /\ skeleton (handleURL m form) = skeleton form.
Proof.
  unfold handleURL, url_descriptor.
  destruct (msg_url m); try (rewrite app_nil_r; auto).
  apply push_attachment_lists.
Qed.

Lemma handleSticker_lists (m : MessageObject) (form : Form) :
  attachments (input (handleSticker m form)) =
    (attachments (input form) ++ sticker_descriptor m)%list
  /\ ranges (message (input (handleSticker m form))) = ranges (message (input form))
  /\ skeleton (handleSticker m form) = skeleton form.
Proof.
  unfold handleSticker, sticker_descriptor.
  destruct (truthy (msg_sticker m)); [apply push_attachment_lists|].
  rewrite app_nil_r. auto.
Qed.

(** A mention adds at most one range, at the end, and nothing else. *)
Lemma handleMention_lists (body : option string) (item : Mention) (form form' : Form) :
  handleMention body item form = Ok form' ->
  attachments (input form') = attachments (input form)
  /\ (exists new, ranges (message (input form')) =
                  (ranges (message (input form)) ++ new)%list)
  /\ skeleton form' = skeleton form.
Proof.
  unfold handleMention. intros H.
  assert (Hsame : Ok form = Ok form' ->
                  attachments (input form') = attachments (input form)
                  /\ (exists new, ranges (message (input form')) =
                                  (ranges (message (input form)) ++ new)%list)
                  /\ skeleton form' = skeleton form).
  { intros E. injection E as <-. repeat split; auto. exists []. now rewrite app_nil_r. }
  destruct (mention_tag item); auto.
  destruct (negb (truthy (mention_id item))); auto.
  destruct body as [body|]; [|discriminate].
  destruct (_ <? 0); auto.
  injection H as <-. repeat split. eexists. reflexivity.
Qed.

Lemma handleMentions_lists (m : MessageObject) (form form' : Form) :
  handleMentions m form = Ok form' ->
  attachments (input form') = attachments (input form)
  /\ (exists new, ranges (message (input form')) =
                  (ranges (message (input form)) ++ new)%list)
  /\ skeleton form' = skeleton form.
Proof.
  unfold handleMentions.
  assert (Hsame : Ok form = Ok form' ->
                  attachments (input form') = attachments (input form)
                  /\ (exists new, ranges (message (input form')) =
                                  (ranges (message (input form)) ++ new)%list)
                  /\ skeleton form' = skeleton form).
  { intros E. injection E as <-. repeat split; auto. exists []. now rewrite app_nil_r. }
  destruct (msg_mentions m) as [items|]; auto. clear Hsame.
  generalize (msg_body m). intros body.
  revert form. induction items as [|item items IH]; intros form; simpl.
  - intros E. injection E as <-. repeat split; auto. exists []. now rewrite app_nil_r.
  - destruct (handleMention body item form) as [form1|e] eqn:E1; simpl; [|discriminate].
    intros E. destruct (IH _ E) as (Ha & [new Hr] & Hs).
    destruct (handleMention_lists _ _ _ _ E1) as (Ha1 & [new1 Hr1] & Hs1).
    repeat split; [congruence | | congruence].
    exists (new1 ++ new)%list. rewrite Hr, Hr1, app_assoc. reflexivity.
Qed.

(** The mention handler fails only for want of a body to search. *)
Lemma handleMentions_ok (m : MessageObject) (form : Form) :
  (msg_body m = None ->
   Forall (fun item => searched item = false) (or_empty (msg_mentions m))) ->
  exists form', handleMentions m form = Ok form'.
Proof.
  unfold handleMentions. intros H.
  destruct (msg_mentions m) as [items|]; [|eauto]. simpl in H.
  destruct (msg_body m) as [body|].
  - destruct (handleMentions_loop_spec body items form) as (groups & _ & E). eauto.
  - specialize (H eq_refl). revert form.
    induction H as [|item items Hitem _ IH]; intros form; simpl; [eauto|].
    assert (E : handleMention None item form = Ok form).
    { unfold handleMention. unfold searched in Hitem.
      destruct (mention_tag item); auto. rewrite Hitem. reflexivity. }
    rewrite E. simpl. apply IH.
Qed.

Lemma upload_succeeds_then (i : nat) (item fbid : value) :
  upload_succeeds i item fbid ->
  (res <- postFormData i (upload_request item) ;; upload_then res) = Ok (Media fbid).
Proof.
  intros (_ & res & error & payload & -> & He & Hfalsy & Hp & Hf & Htruthy).
  simpl. unfold upload_then. rewrite He. simpl. rewrite Hfalsy, Hp. simpl.
  assert (Hpayload : truthy payload = true).
  { destruct payload; simpl in *; try reflexivity; try discriminate;
      injection Hf as <-; discriminate. }
  rewrite Hpayload. simpl. rewrite Hf. simpl. rewrite Htruthy. reflexivity.
Qed.

Lemma upload_map_succeed (items fbids : list value) (i : nat) :
  uploads_succeed i items fbids ->
  upload_map items i =
    (map upload_request items, Ok (map (fun fbid => Ok (Media fbid)) fbids)).
Proof.
  revert fbids i. induction items as [|item items IH]; intros [|fbid fbids] i H;
    simpl in H; try contradiction; [reflexivity|].
  destruct H as [H1 H2]. simpl.
  destruct H1 as [Hr H1'].
  rewrite Hr. simpl.
  rewrite (upload_succeeds_then i item fbid (conj Hr H1')).
  rewrite (IH fbids (S i) H2). reflexivity.
Qed.

Lemma fulfilled_map_Ok {A : Type} (xs : list A) : fulfilled (map Ok xs) = xs.
Proof. induction xs as [|x xs IH]; simpl; [reflexivity | now rewrite IH]. Qed.

Lemma Promise_all_fulfilled {A : Type} (order : list nat) (xs : list A) :
  Promise_all order (map Ok xs) = Ok xs.
Proof.
  unfold Promise_all.
  assert (H1 : forall o, first_rejection o (map (@Ok A) xs) = None).
  { induction o as [|i o IH]; simpl; [reflexivity|].
    rewrite nth_error_map. destruct (nth_error xs i); simpl; exact IH. }
  rewrite H1, fulfilled_map_Ok. reflexivity.
Qed.

(** When every upload succeeds, one request per attachment is issued and
    the media descriptors are added in the order of the attachments. *)
Lemma handleUpload_succeed (m : MessageObject) (fbids : list value) (form : Form) :
  uploads_succeed 0 (or_empty (msg_attachments m)) fbids ->
  handleUpload (with_defaults m) form =
    (map upload_request (or_empty (msg_attachments m)),
     Ok (fold_left push_attachment (map Media fbids) form)).
Proof.
  intros H. unfold handleUpload. simpl.
  destruct (or_empty (msg_attachments m)) as [|item items] eqn:E.
  - destruct fbids; [reflexivity | contradiction].
  - rewrite (upload_map_succeed _ _ _ H). simpl.
    rewrite <- (map_map Media (@Ok Descriptor)).
    rewrite Promise_all_fulfilled. reflexivity.
Qed.

Lemma handleUpload_pushes (m : MessageObject) (form form' : Form) :
  snd (handleUpload m form) = Ok form' ->
  exists descriptors, form' = fold_left push_attachment descriptors form.
Proof.
  unfold handleUpload.
  destruct (msg_attachments m) as [[|item items]|];
    try (simpl; intros E; injection E as <-; exists []; reflexivity).
  destruct (upload_map (item :: items) 0) as [requests [ps|e]]; simpl;
    [|discriminate].
  destruct (Promise_all settle_order ps) as [results|e]; simpl; [|discriminate].
  intros E. injection E as <-. eauto.
Qed.

(** Assembly only appends to the two lists and changes nothing else. *)
Lemma assemble_appends (m : MessageObject) (form form' : Form) :
  assemble m form = Ok form' ->
  skeleton form' = skeleton form
  /\ (exists added, attachments (input form') =
                    (attachments (input form) ++ added)%list)
  /\ (exists added, ranges (message (input form')) =
                    (ranges (message (input form)) ++ added)%list).
Proof.
  unfold assemble.
  destruct (snd (handleUpload m form)) as [form1|e] eqn:E1; simpl; [|discriminate].
  destruct (handleMentions m (handleURL m form1)) as [form2|e] eqn:E2; simpl;
    [|discriminate].
  intros E. injection E as <-.
  destruct (handleUpload_pushes _ _ _ E1) as [descriptors ->].
  destruct (push_attachments_lists descriptors form) as (Ha1 & Hr1 & Hs1).
  destruct (handleURL_lists m (fold_left push_attachment descriptors form))
    as (Ha2 & Hr2 & Hs2).
  destruct (handleMentions_lists _ _ _ E2) as (Ha3 & [new Hr3] & Hs3).
  destruct (handleSticker_lists m form2) as (Ha4 & Hr4 & Hs4).
  repeat split.
  - congruence.
  - eexists. rewrite Ha4, Ha3, Ha2, Ha1, <- !app_assoc. reflexivity.
  - exists new. rewrite Hr4, Hr3, Hr2, Hr1. reflexivity.
Qed.

Lemma feedback_id_skeleton (form : Form) :
  feedback_id (input (skeleton form)) = feedback_id (input form).
Proof. reflexivity. Qed.

(** C5: when the N attachments of a message all upload successfully, with
    media identifiers [fbids], and the mention handler has a body to search
    (or no mention to search for), assembly succeeds from any form, the
    attachment list gets, after what it held, the N descriptors
    [{media: {id}}] in the order of the attachments, then
    [{link: {external: {url}}}] if [url] is a string, then the sticker's
    [{media: {id}}] if there is a (truthy) sticker, and the range list only
    gets new ranges after what it held; the form the call submits holds
    exactly these descriptors. *)
Theorem attachments_in_upload_url_sticker_order (st : State) (m : MessageObject)
    (p : string) (replyCommentID : value) (callback : option nat)
    (fbids : list value) :
  uploads_succeed 0 (or_empty (msg_attachments m)) fbids ->
  (msg_body m = None ->
   Forall (fun item => searched item = false) (or_empty (msg_mentions m))) ->
  let added :=
    (map Media fbids ++ url_descriptor m ++ sticker_descriptor m)%list in
  (forall form0 : Form,
      exists form new_ranges,
        assemble (with_defaults m) form0 = Ok form
        /\ attachments (input form) = (attachments (input form0) ++ added)%list
        /\ ranges (message (input form)) =
           (ranges (message (input form0)) ++ new_ranges)%list)
  /\ exists form,
      submitted_forms
        (events (fst (createCommentPost st (MsgObject m) (VStr p)
                        replyCommentID callback))) = [form]
      /\ attachments (input form) = added.
Proof.
  intros Hup Hbody added.
  assert (Hassemble : forall form0 : Form,
    exists form new_ranges,
      assemble (with_defaults m) form0 = Ok form
      /\ attachments (input form) = (attachments (input form0) ++ added)%list
      /\ ranges (message (input form)) =
         (ranges (message (input form0)) ++ new_ranges)%list).
  { intros form0. unfold assemble.
    rewrite (handleUpload_succeed m fbids form0 Hup). simpl.
    set (form1 := fold_left push_attachment (map Media fbids) form0).
    destruct (handleMentions_ok (with_defaults m)
                (handleURL (with_defaults m) form1) Hbody) as [form2 E2].
    rewrite E2. simpl.
    destruct (push_attachments_lists (map Media fbids) form0) as (Ha1 & Hr1 & _).
    destruct (handleURL_lists (with_defaults m) form1) as (Ha2 & Hr2 & _).
    destruct (handleMentions_lists _ _ _ E2) as (Ha3 & [new Hr3] & _).
    destruct (handleSticker_lists (with_defaults m) form2) as (Ha4 & Hr4 & _).
    exists (handleSticker (with_defaults m) form2), new.
    split; [reflexivity|]. split.
    - rewrite Ha4, Ha3, Ha2. fold form1 in Ha1. rewrite Ha1.
      unfold added. rewrite <- !app_assoc. reflexivity.
    - rewrite Hr4, Hr3, Hr2. fold form1 in Hr1. rewrite Hr1. reflexivity. }
  split; [exact Hassemble|].
  rewrite (submitted_forms_valid st (MsgObject m) p replyCommentID callback
             (with_defaults m) (or_intror eq_refl) eq_refl).
  destruct (Hassemble (build_form st (with_defaults m) (VStr p)
                         (fst (optional_parameters replyCommentID callback))))
    as (form & new & -> & Ha & _).
  exists form. split; [reflexivity | exact Ha].
Qed.

(** C9: for every string [postID], the [feedback_id] of the form as built,
    and of any form the call submits, is the base64 encoding of
    ["feedback:" + postID]. *)
Theorem feedback_id_is_base64 (st : State) (msg : MsgArg) (p : string)
    (replyCommentID : value) (callback : option nat) :
  (forall (m : MessageObject) (reply : value),
      feedback_id (input (build_form st m (VStr p) reply)) =
      base64 (utf8 ("feedback:" ++ p)))
  /\ (forall form : Form,
        In form (submitted_forms
                   (events (fst (createCommentPost st msg (VStr p)
                                   replyCommentID callback)))) ->
        feedback_id (input form) = base64 (utf8 ("feedback:" ++ p))).
Proof.
  split; [reflexivity|].
  intros form Hin.
  destruct (submitted_form_inv _ _ _ _ _ _ Hin) as (m & p' & _ & _ & _ & E).
  destruct (assemble_appends _ _ _ E) as (Hs & _).
  rewrite <- feedback_id_skeleton, Hs. reflexivity.
Qed.
End Assembly.

(** ** Completion *)

Section Pipeline.
Context {collaborators : Collaborators}.

(** A validated call returns the promise; its uploads are issued during
    the call, and its completion is that of what the handlers settle to. *)
Lemma createCommentPost_completion (st : State) (msg : MsgArg) (p : string)
    (replyCommentID : value) (callback : option nat) (m : MessageObject) :
  typeof_msg msg = TString \/ typeof_msg msg = TObject ->
  prepare msg = Ok m ->
  let reply := fst (optional_parameters replyCommentID callback) in
  let cb := snd (optional_parameters replyCommentID callback) in
  let form := build_form st m (VStr p) reply in
  let r := fst (createCommentPost st msg (VStr p) replyCommentID callback) in
  outcome r = Returns RetPromise
  /\ during_call r = map EUpload (fst (handleUpload m form))
  /\ callbacks (events r) = callbacks (fst (completion cb (settlement m form)))
  /\ promise r = snd (completion cb (settlement m form)).
Proof.
  intros Hty Hprep reply cb form r. subst r.
  rewrite (createCommentPost_valid st msg p replyCommentID callback m Hty Hprep).
  fold reply cb form. unfold events. simpl.
  rewrite !callbacks_app, callbacks_uploads, callbacks_submits. simpl.
  assert (E : snd match snd (handleUpload m form) with
                  | Ok form0 => merge_and_submit m form0
                  | Throw e => ([], Throw e)
                  end = settlement m form).
  { unfold settlement, assemble, merge_and_submit, createContent.
    destruct (snd (handleUpload m form)) as [form1|e]; simpl; [|reflexivity].
    destruct (handleMentions m (handleURL m form1)) as [form2|e]; reflexivity. }
  rewrite E. auto.
Qed.

Lemma completion_calls (cb : Completion) (settled : result value) :
  returns_normally cb ->
  exists err data,
    callbacks (fst (completion cb settled)) = [(err, data)]
    /\ (data = VUndefined \/ err = VNull)
    /\ snd (completion cb settled) = settled_by cb err data.
Proof.
  intros Hcb. destruct settled as [info|err]; simpl.
  - destruct (on_fulfilled_calls cb info Hcb) as [-> ->].
    exists VNull, info. auto.
  - destruct (on_rejected_calls cb err) as (-> & _ & _ & ->).
    exists err, VUndefined. auto.
Qed.

Lemma completion_failure (cb : Completion) (err : value) :
  callbacks (fst (completion cb (Throw err))) = [(err, VUndefined)]
  /\ snd (completion cb (Throw err)) = settled_by cb err VUndefined.
Proof. simpl. destruct (on_rejected_calls cb err) as (-> & _ & _ & ->). auto. Qed.

Lemma upload_map_unreadable (good : list value) (bad : value) (rest : list value)
    (i : nat) :
  Forall (fun item => isReadableStream item = true) good ->
  isReadableStream bad = false ->
  upload_map (good ++ bad :: rest)%list i =
    (map upload_request good, Throw (Error "Attachments must be a readable stream.")).
Proof.
  intros Hgood Hbad. revert i.
  induction Hgood as [|item good Hitem _ IH]; intros i; simpl.
  - rewrite Hbad. reflexivity.
  - rewrite Hitem. simpl. rewrite IH. reflexivity.
Qed.

Lemma handleUpload_unreadable (m : MessageObject) (form : Form)
    (good : list value) (bad : value) (rest : list value) :
  msg_attachments m = Some (good ++ bad :: rest)%list ->
  Forall (fun item => isReadableStream item = true) good ->
  isReadableStream bad = false ->
  handleUpload m form =
    (map upload_request good, Throw (Error "Attachments must be a readable stream.")).
Proof.
  intros Hm Hgood Hbad. unfold handleUpload. rewrite Hm.
  pose proof (upload_map_unreadable good bad rest 0 Hgood Hbad) as E.
  destruct (good ++ bad :: rest)%list as [|item items] eqn:El.
  - destruct good; discriminate.
  - rewrite E. reflexivity.
Qed.

(** C2, amended: when the attachment [bad] at position k is the first to
    fail the readable-stream check, the call issues the upload requests of
    the k attachments before it, in order, while it runs, and none for
    [bad] or any attachment after it; no mutation request is sent and the
    call fails with the error [Attachments must be a readable stream.].
    When the first attachment fails the check (k = 0), no request at all is
    issued. *)
Theorem uploads_stop_at_first_unreadable (st : State) (m : MessageObject)
    (p : string) (replyCommentID : value) (callback : option nat)
    (good : list value) (bad : value) (rest : list value) :
  or_empty (msg_attachments m) = (good ++ bad :: rest)%list ->
  Forall (fun item => isReadableStream item = true) good ->
  isReadableStream bad = false ->
  let r := fst (createCommentPost st (MsgObject m) (VStr p) replyCommentID callback) in
  during_call r = map EUpload (map upload_request good)
  /\ upload_requests (events r) = map upload_request good
  /\ submitted_forms (events r) = []
  /\ fails_with r (Error "Attachments must be a readable stream.")
  /\ promise r =
       settled_by (snd (optional_parameters replyCommentID callback))
         (Error "Attachments must be a readable stream.") VUndefined.
Proof.
  intros Hatts Hgood Hbad r.
  set (reply := fst (optional_parameters replyCommentID callback)).
  set (cb := snd (optional_parameters replyCommentID callback)).
  set (form := build_form st (with_defaults m) (VStr p) reply).
  assert (Hup : handleUpload (with_defaults m) form =
                (map upload_request good,
                 Throw (Error "Attachments must be a readable stream."))).
  { apply handleUpload_unreadable with (bad := bad) (rest := rest); auto.
    simpl. rewrite Hatts. reflexivity. }
  destruct (createCommentPost_completion st (MsgObject m) p replyCommentID callback
              (with_defaults m) (or_intror eq_refl) eq_refl)
    as (_ & Hd & Hc & Hp).
  fold reply cb form r in Hd, Hc, Hp.
  assert (Hs : settlement (with_defaults m) form =
               Throw (Error "Attachments must be a readable stream.")).
  { unfold settlement, assemble. rewrite Hup. reflexivity. }
  rewrite Hs in Hc, Hp.
  destruct (completion_failure cb (Error "Attachments must be a readable stream."))
    as [Hc' Hp'].
  assert (Hsub : submitted_forms (events r) = []).
  { subst r.
    rewrite (submitted_forms_valid st (MsgObject m) p replyCommentID callback
               (with_defaults m) (or_intror eq_refl) eq_refl).
    fold reply form. unfold assemble. rewrite Hup. reflexivity. }
  rewrite Hup in Hd. simpl in Hd.
  repeat split.
  - exact Hd.
  - subst r.
    rewrite (createCommentPost_valid st (MsgObject m) p replyCommentID callback
               (with_defaults m) (or_intror eq_refl) eq_refl).
    fold reply cb form. unfold events. simpl. rewrite Hup. simpl.
    rewrite upload_requests_app, upload_requests_uploads.
    destruct (on_rejected_calls cb (Error "Attachments must be a readable stream."))
      as (_ & -> & _). apply app_nil_r.
  - exact Hsub.
  - unfold fails_with. rewrite Hc. exact Hc'.
  - rewrite Hp. exact Hp'.
Qed.

(** C3, amended: when the parsed response to the mutation request carries
    a top-level [errors] that is truthy, as every non-empty collection is,
    the call fails and the error value delivered is the response object
    itself, as it is: the completion callback is called once with it, and
    without a caller's callback the promise is rejected with it. *)
Theorem errors_response_is_the_error (st : State) (msg : MsgArg)
    (postID replyCommentID : value) (callback : option nat)
    (form : Form) (res errors : value) :
  let r := fst (createCommentPost st msg postID replyCommentID callback) in
  In form (submitted_forms (events r)) ->
  post (mutation_request form) = Ok res ->
  get res "errors" = Ok errors ->
  truthy errors = true ->
  fails_with r res
  /\ promise r =
       settled_by (snd (optional_parameters replyCommentID callback)) res VUndefined.
Proof.
  intros r Hin Hpost Herrors Htruthy.
  destruct (submitted_form_inv _ _ _ _ _ _ Hin) as (m & p & -> & Hty & Hprep & E).
  destruct (createCommentPost_completion st msg p replyCommentID callback m Hty Hprep)
    as (_ & _ & Hc & Hp).
  fold r in Hc, Hp.
  assert (Hs : settlement m (build_form st m (VStr p)
                               (fst (optional_parameters replyCommentID callback)))
               = Throw res).
  { unfold settlement. rewrite E. simpl. rewrite Hpost. simpl.
    unfold createContent_result. rewrite Herrors. simpl. rewrite Htruthy.
    reflexivity. }
  rewrite Hs in Hc, Hp.
  destruct (completion_failure
              (snd (optional_parameters replyCommentID callback)) res) as [Hc' Hp'].
  split; [unfold fails_with; congruence | congruence].
Qed.

(** C1, amended: for every call that does not throw (the message is not
    [null] with a string [postID]) and whose callback, if the caller gave
    one, returns normally, the completion callback is called exactly once,
    with [(error)] or [(null, result)]; a call that passes the validation
    returns the promise; when the caller gave no callback the promise is
    rejected with that error (a truthy one) or fulfilled with that result,
    and when the caller gave a callback the promise is left pending. *)
Theorem completion_callback_once (st : State) (msg : MsgArg)
    (postID replyCommentID : value) (callback : option nat) :
  ~ (msg = MsgNull /\ typeof postID = TString) ->
  returns_normally (snd (optional_parameters replyCommentID callback)) ->
  let r := fst (createCommentPost st msg postID replyCommentID callback) in
  (validated msg postID -> outcome r = Returns RetPromise)
  /\ exists err data,
      callbacks (events r) = [(err, data)]
      /\ (data = VUndefined \/ err = VNull)
      /\ promise r =
           settled_by (snd (optional_parameters replyCommentID callback)) err data.
Proof.
  intros Hnull Hcb r.
  assert (Hinvalid :
    (typeof_msg msg <> TString /\ typeof_msg msg <> TObject)
    \/ typeof postID <> TString ->
    (validated msg postID -> outcome r = Returns RetPromise)
    /\ exists err data,
        callbacks (events r) = [(err, data)]
        /\ (data = VUndefined \/ err = VNull)
        /\ promise r =
             settled_by (snd (optional_parameters replyCommentID callback)) err data).
  { intros H.
    destruct (createCommentPost_invalid st msg postID replyCommentID callback H)
      as (message & _ & E).
    destruct (fail_validation_run
                (snd (optional_parameters replyCommentID callback)) message st)
      as (Hd & Ha & Hp & _).
    split.
    - intros [[H1 | H1] H2]; destruct H as [[H3 H4] | H3]; congruence.
    - exists (validation_error message), VUndefined.
      subst r. rewrite E. unfold events. rewrite Hd, Ha, Hp. simpl. auto. }
  destruct (jstype_eqb (typeof postID) TString) eqn:Hpost;
    [|apply Hinvalid; right; apply jstype_eqb_neq; exact Hpost].
  apply jstype_eqb_eq in Hpost.
  destruct (typeof_string _ Hpost) as [p ->].
  assert (Hvalid : forall m,
    typeof_msg msg = TString \/ typeof_msg msg = TObject ->
    prepare msg = Ok m ->
    (validated msg (VStr p) -> outcome r = Returns RetPromise)
    /\ exists err data,
        callbacks (events r) = [(err, data)]
        /\ (data = VUndefined \/ err = VNull)
        /\ promise r =
             settled_by (snd (optional_parameters replyCommentID callback)) err data).
  { intros m Hty Hprep.
    destruct (createCommentPost_completion st msg p replyCommentID callback m Hty Hprep)
      as (Ho & _ & Hc & Hp).
    fold r in Ho, Hc, Hp.
    split; [intros _; exact Ho|].
    destruct (completion_calls
                (snd (optional_parameters replyCommentID callback))
                (settlement m (build_form st m (VStr p)
                                 (fst (optional_parameters replyCommentID callback))))
                Hcb) as (err & data & Hc' & Hshape & Hp').
    exists err, data. repeat split; congruence. }
  destruct msg as [s|m| | |b|n|f].
  - apply (Hvalid (with_defaults (body_only s))); [left|]; reflexivity.
  - apply (Hvalid (with_defaults m)); [right|]; reflexivity.
  - exfalso. apply Hnull. split; reflexivity.
  - apply Hinvalid. left. split; discriminate.
  - apply Hinvalid. left. split; discriminate.
  - apply Hinvalid. left. split; discriminate.
  - apply Hinvalid. left. split; discriminate.
Qed.
End Pipeline.

(** ** Repeated calls *)

Section Repeated.
Context {collaborators : Collaborators}.

Lemma erase_draws_push_attachments (l : list Descriptor) (form : Form) :
  fold_left push_attachment l (erase_draws form) =
  erase_draws (fold_left push_attachment l form).
Proof.
  revert form. induction l as [|d l IH]; intros form; simpl; [reflexivity|].
  rewrite <- IH. reflexivity.
Qed.

Lemma erase_draws_handleUpload (m : MessageObject) (form : Form) :
  handleUpload m (erase_draws form) =
  (fst (handleUpload m form), map_result erase_draws (snd (handleUpload m form))).
Proof.
  unfold handleUpload.
  destruct (msg_attachments m) as [[|item items]|]; try reflexivity.
  destruct (upload_map (item :: items) 0) as [requests [ps|e]]; simpl;
    [|reflexivity].
  destruct (Promise_all settle_order ps) as [results|e]; simpl; [|reflexivity].
  rewrite erase_draws_push_attachments. reflexivity.
Qed.

Lemma erase_draws_handleURL (m : MessageObject) (form : Form) :
  handleURL m (erase_draws form) = erase_draws (handleURL m form).
Proof. unfold handleURL. destruct (msg_url m); reflexivity. Qed.

Lemma erase_draws_handleSticker (m : MessageObject) (form : Form) :
  handleSticker m (erase_draws form) = erase_draws (handleSticker m form).
Proof. unfold handleSticker. destruct (truthy (msg_sticker m)); reflexivity. Qed.

Lemma erase_draws_handleMention (body : option string) (item : Mention) (form : Form) :
  handleMention body item (erase_draws form) =
  map_result erase_draws (handleMention body item form).
Proof.
  unfold handleMention.
  destruct (mention_tag item); try reflexivity.
  destruct (negb (truthy (mention_id item))); try reflexivity.
  destruct body as [body|]; try reflexivity.
  destruct (_ <? 0); reflexivity.
Qed.

Lemma erase_draws_handleMentions (m : MessageObject) (form : Form) :
  handleMentions m (erase_draws form) =
  map_result erase_draws (handleMentions m form).
Proof.
  unfold handleMentions.
  destruct (msg_mentions m) as [items|]; [|reflexivity].
  generalize (msg_body m). intros body. revert form.
  induction items as [|item items IH]; intros form; simpl; [reflexivity|].
  rewrite erase_draws_handleMention.
  destruct (handleMention body item form) as [form1|e]; simpl; [apply IH | reflexivity].
Qed.

Lemma erase_draws_assemble (m : MessageObject) (form : Form) :
  assemble m (erase_draws form) = map_result erase_draws (assemble m form).
Proof.
  unfold assemble. rewrite erase_draws_handleUpload. simpl.
  destruct (snd (handleUpload m form)) as [form1|e]; simpl; [|reflexivity].
  rewrite erase_draws_handleURL, erase_draws_handleMentions.
  destruct (handleMentions m (handleURL m form1)) as [form2|e]; simpl; [|reflexivity].
  rewrite erase_draws_handleSticker. reflexivity.
Qed.

(** A call that does not pass the validation, or whose message cannot be
    prepared, submits nothing. *)
Lemma submitted_forms_none (st : State) (msg : MsgArg)
    (postID replyCommentID : value) (callback : option nat) :
  (forall m p, postID = VStr p ->
               typeof_msg msg = TString \/ typeof_msg msg = TObject ->
               prepare msg = Ok m -> False) ->
  submitted_forms
    (events (fst (createCommentPost st msg postID replyCommentID callback))) = [].
Proof.
  intros H.
  destruct (submitted_forms
              (events (fst (createCommentPost st msg postID replyCommentID callback))))
    as [|form l] eqn:E; [reflexivity|].
  exfalso.
  destruct (submitted_form_inv st msg postID replyCommentID callback form)
    as (m & p & Hp & Hty & Hprep & _); [rewrite E; left; reflexivity|].
  exact (H m p Hp Hty Hprep).
Qed.

(** C4, amended: two calls with the same arguments and the same
    collaborators, whatever was drawn before each, submit request bodies
    that are identical except for three fields drawn per call: the client
    mutation id, the rounded draw of [Math.random], and the idempotency and
    session tokens, the next two tokens of the generator; a call that
    submits a form has advanced the draws by one and the tokens by two. *)
Theorem repeated_calls_differ_only_in_draws (st1 st2 : State) (msg : MsgArg)
    (postID replyCommentID : value) (callback : option nat) :
  map erase_draws
    (submitted_forms
       (events (fst (createCommentPost st1 msg postID replyCommentID callback)))) =
  map erase_draws
    (submitted_forms
       (events (fst (createCommentPost st2 msg postID replyCommentID callback))))
  /\ forall (st : State) (form : Form),
      In form (submitted_forms
                 (events (fst (createCommentPost st msg postID
                                 replyCommentID callback)))) ->
      client_mutation_id (input form) =
        string_of_Z (Math_round_19 (Math_random (random_calls st)))
      /\ idempotence_token (input form) = "client:" ++ getGUID (guid_calls st)
      /\ session_id (input form) = getGUID (S (guid_calls st))
      /\ snd (createCommentPost st msg postID replyCommentID callback) =
         after_build st.
Proof.
  split.
  - destruct (typeof_string_dec postID) as [[p ->] | Hpost].
    2:{ rewrite !submitted_forms_none; [reflexivity | |];
          intros m p -> _ _; apply Hpost; eauto. }
    destruct (typeof_msg_dec msg) as [Hty | Hty].
    2:{ rewrite !submitted_forms_none; [reflexivity | |];
          intros m q _ H _; apply Hty; exact H. }
    destruct (prepare msg) as [m|e] eqn:Hprep.
    2:{ rewrite !submitted_forms_none; [reflexivity | |];
          intros m q _ _ H; congruence. }
    rewrite !(submitted_forms_valid _ msg p replyCommentID callback m Hty Hprep).
    set (reply := fst (optional_parameters replyCommentID callback)).
    assert (E : forall st,
      map erase_draws
        match assemble m (build_form st m (VStr p) reply) with
        | Ok form => [form]
        | Throw _ => []
        end =
      match assemble m (erase_draws (build_form st m (VStr p) reply)) with
      | Ok form => [form]
      | Throw _ => []
      end).
    { intros st. rewrite erase_draws_assemble.
      destruct (assemble m (build_form st m (VStr p) reply)); reflexivity. }
    rewrite !E. reflexivity.
  - intros st form Hin.
    destruct (submitted_form_inv _ _ _ _ _ _ Hin) as (m & p & -> & Hty & Hprep & E).
    destruct (assemble_appends _ _ _ E) as (Hs & _).
    assert (Hfields : forall f g : Form,
      skeleton f = skeleton g ->
      client_mutation_id (input f) = client_mutation_id (input g)
      /\ idempotence_token (input f) = idempotence_token (input g)
      /\ session_id (input f) = session_id (input g)).
    { intros f g H.
      change (client_mutation_id (input (skeleton f)) =
                client_mutation_id (input (skeleton g))
              /\ idempotence_token (input (skeleton f)) =
                 idempotence_token (input (skeleton g))
              /\ session_id (input (skeleton f)) = session_id (input (skeleton g))).
      rewrite H. auto. }
    destruct (Hfields _ _ Hs) as (-> & -> & ->).
    rewrite (createCommentPost_valid st msg p replyCommentID callback m Hty Hprep).
    simpl. auto.
Qed.
End Repeated.

(** ** Concrete runs *)

(** C1, as worded, fails: a call with a caller's callback calls it once with
    the result, and the promise it returns is never settled. *)
Lemma dual_completion_fails_with_callback :
  callbacks (events (run_of (Ok created_response) (MsgString "hi") (VStr "123")
                       (Some 0%nat))) =
    [(VNull, VObj [("id", VStr "c1"); ("url", VStr "https://fb/c1");
                   ("count", VNum 7)])]
  /\ promise (run_of (Ok created_response) (MsgString "hi") (VStr "123")
                (Some 0%nat)) = Pending
  /\ ~ dual_completion (run_of (Ok created_response) (MsgString "hi") (VStr "123")
                          (Some 0%nat)).
Proof.
  split; [reflexivity|]. split; [reflexivity|].
  intros (_ & err & data & _ & [[_ H] | [_ H]]); vm_compute in H; discriminate.
Qed.

Lemma completion_callback_once_witness :
  outcome (run_of (Ok created_response) (MsgString "hi") (VStr "123") None) =
    Returns RetPromise
  /\ exists err data,
      callbacks (events (run_of (Ok created_response) (MsgString "hi") (VStr "123")
                           None)) = [(err, data)]
      /\ (data = VUndefined \/ err = VNull)
      /\ promise (run_of (Ok created_response) (MsgString "hi") (VStr "123") None) =
           settled_by DefaultCallback
             err data.
Proof.
  destruct (@completion_callback_once (test_collaborators (Ok created_response))
              initial_state (MsgString "hi") (VStr "123") VUndefined None)
    as [Hreturn Hcalls].
  - intros [H _]. discriminate.
  - exact I.
  - split; [|exact Hcalls].
    apply Hreturn. split; [left|]; reflexivity.
Defined.

(** C2, as worded, fails: the stream before the attachment that is not one
    has its upload request issued. *)
Lemma upload_issued_before_unreadable_attachment :
  @isReadableStream (test_collaborators (Ok created_response)) (VNum 0) = false
  /\ upload_requests
       (events (run_of (Ok created_response) (MsgObject stream_then_number)
                  (VStr "123") None)) =
     [@upload_request (test_collaborators (Ok created_response)) a_stream]
  /\ ~ issues_no_upload
         (run_of (Ok created_response) (MsgObject stream_then_number) (VStr "123")
            None).
Proof.
  split; [reflexivity|]. split; [reflexivity|].
  intros H. vm_compute in H. discriminate.
Qed.

Lemma uploads_stop_at_first_unreadable_witness :
  during_call
    (run_of (Ok created_response) (MsgObject stream_then_number) (VStr "123") None) =
    [EUpload (@upload_request (test_collaborators (Ok created_response)) a_stream)]
  /\ fails_with
       (run_of (Ok created_response) (MsgObject stream_then_number) (VStr "123") None)
       (Error "Attachments must be a readable stream.").
Proof.
  destruct (@uploads_stop_at_first_unreadable
              (test_collaborators (Ok created_response)) initial_state
              stream_then_number "123" VUndefined None [a_stream] (VNum 0) [])
    as (Hd & _ & _ & Hf & _).
  - reflexivity.
  - repeat constructor.
  - reflexivity.
  - split; [exact Hd | exact Hf].
Defined.

(** C3, as worded, fails: the error delivered is the response that carries
    the error collection, not the collection. *)
Lemma response_delivered_not_its_errors :
  get errors_response "errors" = Ok (VArr [VObj [("message", VStr "Rate limited")]])
  /\ fails_with (run_of (Ok errors_response) (MsgString "hi") (VStr "123") None)
       errors_response
  /\ ~ fails_with (run_of (Ok errors_response) (MsgString "hi") (VStr "123") None)
         (VArr [VObj [("message", VStr "Rate limited")]]).
Proof.
  split; [reflexivity|]. split; [reflexivity|].
  intros H. vm_compute in H. discriminate.
Qed.

Lemma errors_response_is_the_error_witness :
  fails_with (run_of (Ok errors_response) (MsgString "hi") (VStr "123") None)
    errors_response
  /\ promise (run_of (Ok errors_response) (MsgString "hi") (VStr "123") None) =
     Rejected errors_response.
Proof.
  apply (@errors_response_is_the_error (test_collaborators (Ok errors_response))
           initial_state (MsgString "hi") (VStr "123") VUndefined None
           (@build_form (test_collaborators (Ok errors_response)) initial_state
              (with_defaults (body_only "hi")) (VStr "123") VNull)
           errors_response (VArr [VObj [("message", VStr "Rate limited")]])).
  - left. reflexivity.
  - reflexivity.
  - reflexivity.
  - reflexivity.
Defined.

(** C4, as worded, fails: the bodies of two identical calls also differ in
    the client mutation id, here 0 and then 10. *)
Lemma repeated_calls_differ_in_client_mutation_id :
  exists form1 form2,
    submitted_forms
      (events (run_of (Ok created_response) (MsgString "hi") (VStr "123") None)) =
      [form1]
    /\ submitted_forms
         (events (second_run_of (Ok created_response) (MsgString "hi") (VStr "123")
                    None)) = [form2]
    /\ client_mutation_id (input form1) = "0"
    /\ client_mutation_id (input form2) = "10"
    /\ ~ same_except_tokens form1 form2.
Proof.
  eexists. eexists.
  split; [reflexivity|]. split; [reflexivity|].
  split; [reflexivity|]. split; [reflexivity|].
  intros [H _]. vm_compute in H. discriminate.
Qed.

Lemma repeated_calls_differ_only_in_draws_witness :
  map erase_draws
    (submitted_forms
       (events (run_of (Ok created_response) (MsgString "hi") (VStr "123") None))) =
  map erase_draws
    (submitted_forms
       (events (second_run_of (Ok created_response) (MsgString "hi") (VStr "123")
                  None)))
  /\ state_after (Ok created_response) (MsgString "hi") (VStr "123") None =
     {| random_calls := 1; guid_calls := 2 |}.
Proof.
  destruct (@repeated_calls_differ_only_in_draws
              (test_collaborators (Ok created_response)) initial_state
              (state_after (Ok created_response) (MsgString "hi") (VStr "123") None)
              (MsgString "hi") (VStr "123") VUndefined None) as [Hsame Hdraws].
  split; [exact Hsame|].
  destruct (Hdraws initial_state
              (@build_form (test_collaborators (Ok created_response)) initial_state
                 (with_defaults (body_only "hi")) (VStr "123") VNull))
    as (_ & _ & _ & Hstate).
  - left. reflexivity.
  - exact Hstate.
Defined.

Lemma attachments_in_upload_url_sticker_order_witness :
  exists form,
    submitted_forms
      (events (run_of (Ok created_response) (MsgObject full_message) (VStr "123")
                 None)) = [form]
    /\ attachments (input form) =
       [Media (VStr "media-0"); Media (VStr "media-1");
        Link "https://example.org/"; Media (VStr "369")].
Proof.
  destruct (@attachments_in_upload_url_sticker_order
              (test_collaborators (Ok created_response)) initial_state full_message
              "123" VUndefined None [VStr "media-0"; VStr "media-1"])
    as [_ H].
  - simpl. repeat split; eexists; eexists; eexists; repeat split; reflexivity.
  - discriminate.
  - exact H.
Defined.

(** C6 fails on a message without body: the text of the form is the empty
    string, in which the tag of the mention does not occur, and instead of
    passing the mention over the handler throws a TypeError, so that nothing
    is submitted and the call fails with that error. *)
Lemma mention_without_body_fails_the_call :
  text (message (input
    (@build_form (test_collaborators (Ok created_response)) initial_state
       (with_defaults mention_without_body) (VStr "123") VNull))) = ""
  /\ indexOf "" "world" 0 = -1
  /\ handleMentions (with_defaults mention_without_body)
       (@build_form (test_collaborators (Ok created_response)) initial_state
          (with_defaults mention_without_body) (VStr "123") VNull) =
     Throw (TypeError "Cannot read properties of undefined (reading 'indexOf')")
  /\ submitted_forms
       (events (run_of (Ok created_response) (MsgObject mention_without_body)
                  (VStr "123") None)) = []
  /\ fails_with
       (run_of (Ok created_response) (MsgObject mention_without_body) (VStr "123")
          None)
       (TypeError "Cannot read properties of undefined (reading 'indexOf')").
Proof. repeat split. Qed.

Lemma mentions_become_ranges_witness :
  handleMention None
    {| mention_tag := VNum 7; mention_id := VStr "42"; mention_fromIndex := None |}
    (@build_form (test_collaborators (Ok created_response)) initial_state
       (body_only "hi") (VStr "123") VNull) =
  Ok (@build_form (test_collaborators (Ok created_response)) initial_state
        (body_only "hi") (VStr "123") VNull).
Proof.
  apply (proj1 (proj2 mentions_become_ranges)).
  left. discriminate.
Defined.

Lemma non_string_postID_fails_validation_witness :
  exists message,
    (message = "Message must be a string or an object."
     \/ message = "postID must be a string.")
    /\ during_call (run_of (Ok created_response) (MsgString "hi") (VNum 5) None) =
         [ECallback (validation_error message) VUndefined]
    /\ after_call (run_of (Ok created_response) (MsgString "hi") (VNum 5) None) = []
    /\ upload_requests
         (events (run_of (Ok created_response) (MsgString "hi") (VNum 5) None)) = []
    /\ submitted_forms
         (events (run_of (Ok created_response) (MsgString "hi") (VNum 5) None)) = []
    /\ promise (run_of (Ok created_response) (MsgString "hi") (VNum 5) None) =
         settled_by DefaultCallback
           (validation_error message) VUndefined.
Proof.
  apply (@non_string_postID_fails_validation
           (test_collaborators (Ok created_response)) initial_state (MsgString "hi")
           (VNum 5) VUndefined None).
  discriminate.
Defined.

Lemma feedback_id_is_base64_witness :
  feedback_id
    (input (@build_form (test_collaborators (Ok created_response)) initial_state
              (with_defaults (body_only "hi")) (VStr "123") VNull)) =
  "ZmVlZGJhY2s6MTIz".
Proof.
  apply (proj2 (@feedback_id_is_base64 (test_collaborators (Ok created_response))
                  initial_state (MsgString "hi") "123" VUndefined None)).
  left. reflexivity.
Defined.

Lemma falsy_sticker_is_absent_witness :
  @handleSticker (test_collaborators (Ok created_response))
    {| msg_body := Some "hi";
       msg_attachments := None;
       msg_mentions := None;
       msg_url := VUndefined;
       msg_sticker := VNum 0 |}
    (@build_form (test_collaborators (Ok created_response)) initial_state
       (body_only "hi") (VStr "123") VNull) =
  @build_form (test_collaborators (Ok created_response)) initial_state
    (body_only "hi") (VStr "123") VNull.
Proof.
  apply (proj2 (@null_message_throws_and_falsy_sticker_is_absent
                  (test_collaborators (Ok created_response)))).
  reflexivity.
Defined.

(** * Further properties of the comment module *)

Section Cases.
Context {collaborators : Collaborators}.

(** The three ways a call goes: it ends in its validation, it throws while
    the message is prepared, or it runs the handlers. *)
Lemma createCommentPost_cases (st : State) (msg : MsgArg)
    (postID replyCommentID : value) (callback : option nat) :
  let reply := fst (optional_parameters replyCommentID callback) in
  let cb := snd (optional_parameters replyCommentID callback) in
  (exists message,
      ((typeof_msg msg <> TString /\ typeof_msg msg <> TObject)
       /\ message = "Message must be a string or an object."
       \/ (typeof_msg msg = TString \/ typeof_msg msg = TObject)
          /\ typeof postID <> TString /\ message = "postID must be a string.")
      /\ createCommentPost st msg postID replyCommentID callback =
         fail_validation cb message st)
  \/ (exists e,
        (typeof_msg msg = TString \/ typeof_msg msg = TObject)
        /\ typeof postID = TString
        /\ prepare msg = Throw e
        /\ createCommentPost st msg postID replyCommentID callback =
           ({| outcome := Throws e; during_call := []; after_call := [];
               promise := Pending |}, st))
  \/ (exists m p,
        postID = VStr p
        /\ (typeof_msg msg = TString \/ typeof_msg msg = TObject)
        /\ prepare msg = Ok m
        /\ createCommentPost st msg postID replyCommentID callback =
           ({| outcome := Returns RetPromise;
               during_call := map EUpload (fst (handleUpload m (build_form st m postID reply)));
               after_call :=
                 (map ESubmit
                    (fst match snd (handleUpload m (build_form st m postID reply)) with
                         | Throw e => ([], Throw e)
                         | Ok form => merge_and_submit m form
                         end)
                  ++ fst (completion cb (settlement m (build_form st m postID reply))))%list;
               promise := snd (completion cb (settlement m (build_form st m postID reply)))
            |}, after_build st)).
Proof.
  intros reply cb.
  destruct (typeof_msg_dec msg) as [Hty | Hty].
  2:{ left. exists "Message must be a string or an object.". split.
      - left. split; [|reflexivity]. split; intros H; apply Hty; auto.
      - unfold createCommentPost. fold reply cb.
        destruct (optional_parameters replyCommentID callback) as [reply' cb'].
        simpl in *.
        destruct msg; simpl in *; try reflexivity; exfalso; apply Hty; auto. }
  destruct (typeof_string_dec postID) as [[p ->] | Hpost].
  2:{ left. exists "postID must be a string.". split.
      - right. split; [exact Hty|]. split; [|reflexivity].
        intros H. apply Hpost. apply typeof_string. exact H.
      - unfold createCommentPost.
        destruct (optional_parameters replyCommentID callback) as [reply' cb'].
        simpl.
        replace (negb (jstype_eqb (typeof_msg msg) TString)
                 && negb (jstype_eqb (typeof_msg msg) TObject)) with false
          by (destruct Hty as [-> | ->]; reflexivity).
        replace (negb (jstype_eqb (typeof postID) TString)) with true; [reflexivity|].
        destruct postID; try reflexivity. exfalso. apply Hpost. eauto. }
  destruct (prepare msg) as [m|e] eqn:Hprep.
  - right. right. exists m, p. repeat split; auto.
    rewrite (createCommentPost_valid st msg p replyCommentID callback m Hty Hprep).
    fold reply cb.
    assert (E : snd match snd (handleUpload m (build_form st m (VStr p) reply)) with
                    | Ok form0 => merge_and_submit m form0
                    | Throw e => ([], Throw e)
                    end = settlement m (build_form st m (VStr p) reply)).
    { unfold settlement, assemble, merge_and_submit, createContent.
      destruct (snd (handleUpload m (build_form st m (VStr p) reply)))
        as [form1|e]; simpl; [|reflexivity].
      destruct (handleMentions m (handleURL m form1)) as [form2|e]; reflexivity. }
    rewrite E. reflexivity.
  - right. left. exists e. split; [exact Hty|].
    split; [reflexivity|]. split; [reflexivity|].
    unfold createCommentPost.
    destruct (optional_parameters replyCommentID callback) as [reply' cb'].
    simpl.
    replace (negb (jstype_eqb (typeof_msg msg) TString)
             && negb (jstype_eqb (typeof_msg msg) TObject)) with false
      by (destruct Hty as [-> | ->]; reflexivity).
    rewrite Hprep. reflexivity.
Qed.

Lemma completion_requests (cb : Completion) (settled : result value) :
  upload_requests (fst (completion cb settled)) = []
  /\ submitted_forms (fst (completion cb settled)) = [].
Proof.
  destruct settled as [info|e]; simpl.
  - apply on_fulfilled_requests.
  - destruct (on_rejected_calls cb e) as (_ & H1 & H2 & _). auto.
Qed.
End Cases.

(** ** Uploads *)

Section Uploads.
Context {collaborators : Collaborators}.

Lemma prepare_attachments (msg : MsgArg) (m : MessageObject) :
  prepare msg = Ok m -> msg_attachments m = Some (attachments_of msg).
Proof.
  destruct msg; simpl; intros H; try discriminate; injection H as <-; reflexivity.
Qed.



(** When the function given to [map] does not throw, every attachment is a
    readable stream, has had its request issued, and has its promise. *)
Lemma upload_map_all (items : list value) (i : nat) (ps : list (result Descriptor)) :
  snd (upload_map items i) = Ok ps ->
  fst (upload_map items i) = map upload_request items
  /\ Forall (fun item => isReadableStream item = true) items
  /\ List.length ps = List.length items
  /\ forall k item, nth_error items k = Some item ->
                    nth_error ps k = Some (upload_outcome (i + k) item).
Proof.
  revert i ps. induction items as [|item items IH]; intros i ps; simpl.
  - intros H. injection H as <-. repeat split; auto.
    intros [|k] item H; discriminate.
  - destruct (isReadableStream item) eqn:Hr; simpl; [|discriminate].
    specialize (IH (S i)).
    destruct (upload_map items (S i)) as [requests [ps'|e]]; simpl in *;
      [|discriminate].
    intros H. injection H as <-.
    destruct (IH ps' eq_refl) as (H1 & H2 & H3 & H4).
    repeat split.
    + rewrite H1. reflexivity.
    + constructor; assumption.
    + simpl. rewrite H3. reflexivity.
    + intros [|k] item' Hk; simpl in *.
      * injection Hk as <-. rewrite Nat.add_0_r. reflexivity.
      * rewrite (H4 k item' Hk). f_equal. f_equal. unfold upload_outcome.
        replace (i + S k)%nat with (S i + k)%nat by lia. reflexivity.
Qed.

Lemma upload_map_readable (items : list value) (i : nat) :
  Forall (fun item => isReadableStream item = true) items ->
  exists ps, snd (upload_map items i) = Ok ps.
Proof.
  intros H. revert i. induction H as [|item items Hitem _ IH]; intros i; simpl.
  - eauto.
  - rewrite Hitem. simpl. destruct (IH (S i)) as [ps Hps].
    destruct (upload_map items (S i)) as [requests uploads]. simpl in *.
    rewrite Hps. simpl. eauto.
Qed.

Lemma first_rejection_some {A : Type} (order : list nat) (ps : list (result A))
    (e : value) :
  first_rejection order ps = Some e ->
  exists k, nth_error ps k = Some (Throw e).
Proof.
  induction order as [|i order IH]; simpl; [discriminate|].
  destruct (nth_error ps i) as [[a|e']|] eqn:E; auto.
  intros H. injection H as ->. eauto.
Qed.

Lemma first_rejection_none {A : Type} (order : list nat) (ps : list (result A)) :
  first_rejection order ps = None ->
  forall k e, In k order -> nth_error ps k <> Some (Throw e).
Proof.
  induction order as [|i order IH]; simpl; [contradiction|].
  destruct (nth_error ps i) as [[a|e']|] eqn:E; try discriminate;
    intros H k e [<- | Hin]; auto; congruence.
Qed.

Lemma no_rejection_all_fulfilled {A : Type} (ps : list (result A)) :
  (forall k e, nth_error ps k <> Some (Throw e)) ->
  ps = map Ok (fulfilled ps).
Proof.
  induction ps as [|[a|e] ps IH]; intros H; simpl.
  - reflexivity.
  - f_equal. apply IH. intros k e. exact (H (S k) e).
  - exfalso. exact (H 0%nat e eq_refl).
Qed.

(** [Promise.all] is fulfilled only when every promise is, with their
    values in order. *)
Lemma Promise_all_Ok {A : Type} (order : list nat) (ps : list (result A))
    (results : list A) :
  Promise_all order ps = Ok results -> ps = map Ok results.
Proof.
  unfold Promise_all.
  destruct (first_rejection (order ++ seq 0 (List.length ps)) ps) eqn:E;
    [discriminate|].
  intros H. injection H as <-. apply no_rejection_all_fulfilled.
  intros k e Hk.
  assert (Hlt : (k < List.length ps)%nat)
    by (apply nth_error_Some; congruence).
  apply (first_rejection_none _ _ E k e); [|exact Hk].
  apply in_or_app. right. apply in_seq. lia.
Qed.

(** It is rejected with the reason of one of the promises. *)
Lemma Promise_all_Throw {A : Type} (order : list nat) (ps : list (result A))
    (e : value) :
  Promise_all order ps = Throw e -> exists k, nth_error ps k = Some (Throw e).
Proof.
  unfold Promise_all.
  destruct (first_rejection (order ++ seq 0 (List.length ps)) ps) eqn:E;
    [|discriminate].
  intros H. injection H as ->. eapply first_rejection_some; eauto.
Qed.

(** It is rejected as soon as one promise is. *)
Lemma Promise_all_rejects {A : Type} (order : list nat) (ps : list (result A))
    (j : nat) (e : value) :
  nth_error ps j = Some (Throw e) -> exists e', Promise_all order ps = Throw e'.
Proof.
  intros Hj. destruct (Promise_all order ps) as [results|e'] eqn:E; [|eauto].
  apply Promise_all_Ok in E. rewrite E in Hj.
  rewrite nth_error_map in Hj. destruct (nth_error results j); discriminate.
Qed.

Lemma upload_then_Ok (res : value) (d : Descriptor) :
  upload_then res = Ok d <->
  exists error payload fbid,
    get res "error" = Ok error /\ truthy error = false
    /\ get res "payload" = Ok payload
    /\ get payload "fbid" = Ok fbid /\ truthy fbid = true
    /\ d = Media fbid.
Proof.
  unfold upload_then. split.
  - destruct (get res "error") as [error|e] eqn:E1; simpl; [|discriminate].
    destruct (truthy error) eqn:T1; [discriminate|].
    destruct (get res "payload") as [payload|e] eqn:E2; simpl; [|discriminate].
    destruct (truthy payload) eqn:T2; simpl; [|discriminate].
    destruct (get payload "fbid") as [fbid|e] eqn:E3; simpl; [|discriminate].
    destruct (truthy fbid) eqn:T3; simpl; [|discriminate].
    intros H. injection H as <-. exists error, payload, fbid. auto 10.
  - intros (error & payload & fbid & -> & T1 & E2 & E3 & T3 & ->). simpl.
    rewrite T1, E2. simpl.
    assert (T2 : truthy payload = true).
    { destruct payload; simpl in *; try reflexivity; try discriminate;
        injection E3 as <-; discriminate. }
    rewrite T2. simpl. rewrite E3. simpl. rewrite T3. reflexivity.
Qed.

(** X4: an upload response is accepted exactly when it has no truthy
    [error] and a truthy [payload.fbid], and then gives [{media: {id: fbid}}];
    a response that is not accepted is thrown as it is, unless it is
    [undefined] or [null], when reading its [error] throws a TypeError. *)
Theorem upload_response_accepted_or_thrown (res : value) :
  (forall d : Descriptor,
      upload_then res = Ok d <->
      exists error payload fbid,
        get res "error" = Ok error /\ truthy error = false
        /\ get res "payload" = Ok payload
        /\ get payload "fbid" = Ok fbid /\ truthy fbid = true
        /\ d = Media fbid)
  /\ (forall e : value,
        upload_then res = Throw e ->
        e = res
        \/ ((res = VUndefined \/ res = VNull) /\ exists message, e = TypeError message)).
Proof.
  split; [intros d; apply upload_then_Ok|].
  intros e. unfold upload_then.
  destruct (get res "error") as [error|e1] eqn:E1; simpl.
  - destruct (truthy error); [intros H; injection H as <-; auto|].
    destruct (get res "payload") as [payload|e2] eqn:E2; simpl.
    + destruct (truthy payload) eqn:T2; simpl; [|intros H; injection H as <-; auto].
      destruct (get payload "fbid") as [fbid|e3] eqn:E3; simpl.
      * destruct (truthy fbid); simpl; [discriminate|].
        intros H. injection H as <-. auto.
      * destruct payload; simpl in *; discriminate.
    + destruct res; simpl in *; discriminate.
  - intros H. injection H as <-. right.
    destruct res; simpl in E1; try discriminate; injection E1 as <-;
      split; eauto.
Qed.
End Uploads.

Section UploadsOfACall.
Context {collaborators : Collaborators}.

Lemma upload_outcome_Ok (i : nat) (item : value) (d : Descriptor) :
  upload_outcome i item = Ok d -> exists fbid, d = Media fbid /\ truthy fbid = true.
Proof.
  unfold upload_outcome.
  destruct (postFormData i (upload_request item)) as [res|e]; simpl; [|discriminate].
  intros H. apply upload_then_Ok in H.
  destruct H as (error & payload & fbid & _ & _ & _ & _ & T & ->). eauto.
Qed.

Lemma media_of_all (results : list Descriptor) :
  Forall (fun d => exists fbid, d = Media fbid /\ truthy fbid = true) results ->
  exists fbids,
    results = map Media fbids /\ Forall (fun v => truthy v = true) fbids.
Proof.
  induction 1 as [|d results (fbid & -> & T) _ (fbids & -> & IH)].
  - exists []. split; [reflexivity | constructor].
  - exists (fbid :: fbids). split; [reflexivity | constructor; assumption].
Qed.

(** When [handleUpload] succeeds, a request was issued for every attachment
    and one media descriptor per attachment is added. *)
Lemma handleUpload_Ok (m : MessageObject) (form form' : Form) :
  snd (handleUpload m form) = Ok form' ->
  fst (handleUpload m form) = map upload_request (or_empty (msg_attachments m))
  /\ exists fbids,
      List.length fbids = List.length (or_empty (msg_attachments m))
      /\ Forall (fun v => truthy v = true) fbids
      /\ form' = fold_left push_attachment (map Media fbids) form.
Proof.
  unfold handleUpload.
  destruct (msg_attachments m) as [[|item items]|]; simpl or_empty;
    try (simpl; intros H; injection H as <-; split; [reflexivity|];
         exists []; repeat split; constructor).
  pose proof (upload_map_all (item :: items) 0) as Hall.
  destruct (upload_map (item :: items) 0) as [requests [ps|e]];
    [|simpl; discriminate].
  destruct (Hall ps eq_refl) as (H1 & _ & Hlen & Hnth). simpl fst in *.
  simpl snd. simpl bind.
  destruct (Promise_all settle_order ps) as [results|e] eqn:E; simpl; [|discriminate].
  intros H. injection H as <-. split; [exact H1|].
  apply Promise_all_Ok in E. subst ps.
  rewrite length_map in Hlen.
  assert (Hmedia : Forall (fun d => exists fbid, d = Media fbid /\ truthy fbid = true)
                     results).
  { apply Forall_forall. intros d Hd.
    destruct (In_nth_error _ _ Hd) as [k Hk].
    assert (Hlt : (k < List.length (item :: items))%nat).
    { rewrite <- Hlen. apply nth_error_Some. congruence. }
    destruct (nth_error (item :: items) k) as [item'|] eqn:Hitem;
      [|apply nth_error_None in Hitem; lia].
    specialize (Hnth k item' Hitem). rewrite nth_error_map, Hk in Hnth.
    simpl in Hnth. injection Hnth as Hnth.
    apply (upload_outcome_Ok (0 + k) item'). symmetry. exact Hnth. }
  destruct (media_of_all results Hmedia) as (fbids & -> & Htruthy).
  exists fbids. rewrite length_map in Hlen. auto.
Qed.

(** The upload requests of a call that passes validation are those
    [handleUpload] issues. *)
Lemma upload_requests_valid (st : State) (msg : MsgArg) (p : string)
    (replyCommentID : value) (callback : option nat) (m : MessageObject) :
  typeof_msg msg = TString \/ typeof_msg msg = TObject ->
  prepare msg = Ok m ->
  upload_requests
    (events (fst (createCommentPost st msg (VStr p) replyCommentID callback))) =
  fst (handleUpload m (build_form st m (VStr p)
                         (fst (optional_parameters replyCommentID callback)))).
Proof.
  intros Hty Hprep.
  destruct (createCommentPost_cases st msg (VStr p) replyCommentID callback)
    as [(message & [[[H1 H2] _] | (_ & H & _)] & _)
       | [(e & _ & _ & He & _) | (m' & p' & _ & _ & Hprep' & ->)]].
  - destruct Hty; contradiction.
  - exfalso. apply H. reflexivity.
  - congruence.
  - assert (m' = m) by congruence. subst m'.
    unfold events. simpl.
    rewrite !upload_requests_app, upload_requests_uploads, upload_requests_submits.
    destruct (completion_requests
                (snd (optional_parameters replyCommentID callback))
                (settlement m (build_form st m (VStr p)
                                 (fst (optional_parameters replyCommentID callback)))))
      as [-> _].
    rewrite !app_nil_r. reflexivity.
Qed.


(** X2: a call sends at most one mutation request, and only once every
    attachment has been uploaded: when a form is submitted it is the only
    one, an upload request was issued for each attachment, and the form
    holds one media descriptor with a truthy id per attachment, then the URL
    and sticker descriptors. *)
Theorem submission_means_all_uploaded (st : State) (msg : MsgArg)
    (postID replyCommentID : value) (callback : option nat) (form : Form) :
  let r := fst (createCommentPost st msg postID replyCommentID callback) in
  In form (submitted_forms (events r)) ->
  submitted_forms (events r) = [form]
  /\ upload_requests (events r) = map upload_request (attachments_of msg)
  /\ exists m fbids,
      prepare msg = Ok m
      /\ List.length fbids = List.length (attachments_of msg)
      /\ Forall (fun v => truthy v = true) fbids
      /\ attachments (input form) =
         (map Media fbids ++ url_descriptor m ++ sticker_descriptor m)%list.
Proof.
  intros r Hin.
  destruct (submitted_form_inv _ _ _ _ _ _ Hin) as (m & p & -> & Hty & Hprep & E).
  subst r.
  rewrite (submitted_forms_valid st msg p replyCommentID callback m Hty Hprep) in *.
  rewrite E. split; [reflexivity|].
  set (form0 := build_form st m (VStr p)
                  (fst (optional_parameters replyCommentID callback))) in *.
  unfold assemble in E.
  destruct (snd (handleUpload m form0)) as [form1|e] eqn:E1; simpl in E; [|discriminate].
  destruct (handleMentions m (handleURL m form1)) as [form2|e] eqn:E2; simpl in E;
    [|discriminate].
  injection E as <-.
  destruct (handleUpload_Ok m form0 form1 E1) as (Hreq & fbids & Hlen & Htruthy & ->).
  rewrite (prepare_attachments msg m Hprep) in Hreq, Hlen. simpl in Hreq, Hlen.
  split.
  - rewrite (upload_requests_valid st msg p replyCommentID callback m Hty Hprep).
    exact Hreq.
  - exists m, fbids. repeat split; auto.
    destruct (handleSticker_lists m form2) as (-> & _).
    destruct (handleMentions_lists _ _ _ E2) as (-> & _).
    destruct (handleURL_lists m (fold_left push_attachment (map Media fbids) form0))
      as (-> & _).
    destruct (push_attachments_lists (map Media fbids) form0) as (-> & _).
    rewrite <- app_assoc. reflexivity.
Qed.

(** X3: when every attachment is a readable stream and the upload of one of
    them is rejected (its request fails, or its response is not accepted),
    every upload request has been issued, no mutation request is sent, and
    the call fails with the reason of one of the rejected uploads, given to
    the callback as it is. *)
Theorem failed_upload_fails_the_call (st : State) (m : MessageObject) (p : string)
    (replyCommentID : value) (callback : option nat)
    (j : nat) (item : value) (e : value) :
  let items := or_empty (msg_attachments m) in
  let r := fst (createCommentPost st (MsgObject m) (VStr p) replyCommentID callback) in
  Forall (fun item => isReadableStream item = true) items ->
  nth_error items j = Some item ->
  upload_outcome j item = Throw e ->
  upload_requests (events r) = map upload_request items
  /\ submitted_forms (events r) = []
  /\ exists k item' e',
      nth_error items k = Some item'
      /\ upload_outcome k item' = Throw e'
      /\ fails_with r e'
      /\ promise r =
         settled_by (snd (optional_parameters replyCommentID callback)) e' VUndefined.
Proof.
  intros items r Hreadable Hj Hfail.
  set (reply := fst (optional_parameters replyCommentID callback)).
  set (cb := snd (optional_parameters replyCommentID callback)).
  set (form := build_form st (with_defaults m) (VStr p) reply).
  assert (Hitems : exists item0 items0, items = item0 :: items0).
  { destruct items as [|item0 items0]; [destruct j; discriminate | eauto]. }
  destruct Hitems as (item0 & items0 & Hitems).
  destruct (upload_map_readable items 0 Hreadable) as [ps Hps].
  destruct (upload_map_all items 0 ps Hps) as (Hreq & _ & Hlen & Hnth).
  assert (Hpj : nth_error ps j = Some (Throw e)).
  { rewrite (Hnth j item Hj). simpl. rewrite Hfail. reflexivity. }
  destruct (Promise_all_rejects settle_order ps j e Hpj) as [e' Hall].
  destruct (Promise_all_Throw settle_order ps e' Hall) as [k Hk].
  assert (Hup : handleUpload (with_defaults m) form =
                (map upload_request items, Throw e')).
  { unfold handleUpload. simpl msg_attachments. fold items. rewrite Hitems.
    rewrite <- Hitems.
    destruct (upload_map items 0) as [requests uploads]. simpl in *.
    subst uploads requests. simpl. rewrite Hall. reflexivity. }
  assert (Hk' : exists item', nth_error items k = Some item'
                              /\ upload_outcome k item' = Throw e').
  { destruct (nth_error items k) as [item'|] eqn:Hitem.
    - exists item'. split; [reflexivity|].
      rewrite (Hnth k item' Hitem) in Hk. simpl in Hk. congruence.
    - apply nth_error_None in Hitem.
      assert (k < List.length ps)%nat by (apply nth_error_Some; congruence). lia. }
  destruct Hk' as (item' & Hitem' & Hout).
  assert (Hs : settlement (with_defaults m) form = Throw e').
  { unfold settlement, assemble. rewrite Hup. reflexivity. }
  destruct (createCommentPost_completion st (MsgObject m) p replyCommentID callback
              (with_defaults m) (or_intror eq_refl) eq_refl)
    as (_ & _ & Hc & Hp).
  fold reply cb form r in Hc, Hp. rewrite Hs in Hc, Hp.
  destruct (completion_failure cb e') as [Hc' Hp'].
  repeat split.
  - subst r.
    rewrite (upload_requests_valid st (MsgObject m) p replyCommentID callback
               (with_defaults m) (or_intror eq_refl) eq_refl).
    fold reply form. rewrite Hup. reflexivity.
  - subst r.
    rewrite (submitted_forms_valid st (MsgObject m) p replyCommentID callback
               (with_defaults m) (or_intror eq_refl) eq_refl).
    fold reply form. unfold assemble. rewrite Hup. reflexivity.
  - exists k, item', e'. repeat split; auto.
    + unfold fails_with. rewrite Hc. exact Hc'.
    + rewrite Hp. exact Hp'.
Qed.
End UploadsOfACall.

(** ** The form a call submits *)

Section SubmittedForm.
Context {collaborators : Collaborators}.

(** A submitted form differs from the form as built only by its lists. *)
Lemma submitted_form_skeleton (st : State) (msg : MsgArg)
    (postID replyCommentID : value) (callback : option nat) (form : Form) :
  In form (submitted_forms
             (events (fst (createCommentPost st msg postID replyCommentID callback)))) ->
  exists m,
    skeleton form =
    skeleton (build_form st m postID
                (fst (optional_parameters replyCommentID callback))).
Proof.
  intros Hin.
  destruct (submitted_form_inv _ _ _ _ _ _ Hin) as (m & p & _ & _ & _ & E).
  destruct (assemble_appends _ _ _ E) as (Hs & _). eauto.
Qed.

(** X5: a function passed as third argument is the callback, whatever the
    fourth argument, and the comment is then no reply; and the reply parent
    of a submitted form is the third argument when that is truthy and not a
    function, [null] otherwise (when it is undefined, empty or 0). *)
Theorem reply_parent_of_the_submitted_form (st : State) (msg : MsgArg)
    (postID replyCommentID : value) (callback : option nat) :
  (forall f : nat,
      createCommentPost st msg postID (VFun f) callback =
      createCommentPost st msg postID VNull (Some f))
  /\ (forall form : Form,
        In form (submitted_forms
                   (events (fst (createCommentPost st msg postID
                                   replyCommentID callback)))) ->
        reply_comment_parent_fbid (input form) = reply_parent replyCommentID).
Proof.
  split; [reflexivity|].
  intros form Hin.
  destruct (submitted_form_skeleton _ _ _ _ _ _ Hin) as [m Hs].
  change (reply_comment_parent_fbid (input (skeleton form)) =
          reply_parent replyCommentID).
  rewrite Hs. simpl. unfold optional_parameters, reply_parent, js_or.
  destruct replyCommentID; reflexivity.
Qed.


End SubmittedForm.

(** ** Failed validation and the value a call returns *)

Section ReturnValue.
Context {collaborators : Collaborators}.

(** X12: the message is validated before the post id: a message of another
    type than string and object is reported as such whatever the post id,
    and a non-string post id is reported for every other message, [null]
    included.  Either way the call draws nothing and does not return the
    promise: it returns what the callback returns, [undefined] for the
    default one, and throws what the caller's callback throws. *)
Theorem failed_validation_returns_what_the_callback_returns (st : State)
    (msg : MsgArg) (postID replyCommentID : value) (callback : option nat) :
  (typeof_msg msg <> TString /\ typeof_msg msg <> TObject)
  \/ typeof postID <> TString ->
  let r := fst (createCommentPost st msg postID replyCommentID callback) in
  let cb := snd (optional_parameters replyCommentID callback) in
  exists message,
    ((typeof_msg msg <> TString /\ typeof_msg msg <> TObject)
     /\ message = "Message must be a string or an object."
     \/ (typeof_msg msg = TString \/ typeof_msg msg = TObject)
        /\ message = "postID must be a string.")
    /\ callbacks (events r) = [(validation_error message, VUndefined)]
    /\ outcome r =
       match cb with
       | DefaultCallback => Returns (RetValue VUndefined)
       | UserCallback f =>
           match call_function f (validation_error message) VUndefined with
           | Ok v => Returns (RetValue v)
           | Throw e => Throws e
           end
       end
    /\ snd (createCommentPost st msg postID replyCommentID callback) = st.
Proof.
  intros Hinvalid r cb. subst r.
  destruct (createCommentPost_cases st msg postID replyCommentID callback)
    as [(message & Hmessage & ->)
       | [(e & Hty & Hpost & _) | (m & p & -> & Hty & _)]].
  - exists message. split.
    + destruct Hmessage as [[H ->] | (H & _ & ->)]; auto.
    + fold cb. unfold fail_validation, invoke, events.
      destruct cb as [|f]; simpl; auto.
  - exfalso. destruct Hinvalid as [[H1 H2] | H].
    + destruct Hty; contradiction.
    + contradiction.
  - exfalso. destruct Hinvalid as [[H1 H2] | H].
    + destruct Hty; contradiction.
    + apply H. reflexivity.
Qed.
End ReturnValue.

(** ** Ranges and the order of the handlers *)

Section Ranges.
Context {collaborators : Collaborators}.

Lemma occurs_at_empty (body : string) (k : Z) :
  0 <= k <= strlen body -> occurs_at body "" k.
Proof.
  intros Hk. unfold strlen in Hk.
  destruct (skip_split (Z.to_nat k) body) as (before & E & L); [lia|].
  exists before, (skip (Z.to_nat k) body). split; [exact E|].
  unfold strlen. lia.
Qed.

Lemma mention_ranges_mark (body : string) (items : list Mention) (item : Mention)
    (rs : list Range) :
  In item items ->
  mention_ranges body item rs ->
  Forall (marks_a_tag body items) rs /\ (List.length rs <= 1)%nat.
Proof.
  intros Hin H. destruct H as [tag k Htag Hne Hid (Hge & Hocc & _) | | |Htag Hid];
    simpl; auto.
  - split; [|lia]. constructor; [|constructor].
    exists item, tag. simpl. auto.
  - split; [|lia]. constructor; [|constructor].
    exists item, "". simpl. repeat split; auto.
    apply occurs_at_empty. unfold strlen. lia.
Qed.

Lemma mention_groups_mark (body : string) (items items' : list Mention)
    (groups : list (list Range)) :
  Forall2 (mention_ranges body) items' groups ->
  (forall item, In item items' -> In item items) ->
  Forall (marks_a_tag body items) (List.concat groups)
  /\ (List.length (List.concat groups) <= List.length items')%nat.
Proof.
  induction 1 as [|item rs items' groups Hrs _ IH]; intros Hsub; simpl.
  - split; [constructor | lia].
  - destruct (mention_ranges_mark body items item rs) as [H1 H2];
      [apply Hsub; left; reflexivity | exact Hrs |].
    destruct IH as [H3 H4]; [intros x Hx; apply Hsub; right; exact Hx|].
    split; [apply Forall_app; auto | rewrite length_app; lia].
Qed.

(** X8: on a message with a body text the mention handler adds at most one
    range per mention, after the ranges the form holds, and every range it
    adds marks an occurrence of a tag in the text: its offset and length lie
    within the text, the text at that place is the tag of one of the
    mentions, and its entity is the id of that mention. *)
Theorem mention_ranges_mark_their_tags (body : string) (items : list Mention)
    (atts : option (list value)) (url sticker : value) (form : Form) :
  exists new,
    handleMentions
      {| msg_body := Some body;
         msg_attachments := atts;
         msg_mentions := Some items;
         msg_url := url;
         msg_sticker := sticker |} form = Ok (fold_left push_range new form)
    /\ Forall (marks_a_tag body items) new
    /\ (List.length new <= List.length items)%nat
    /\ Forall (fun r => 0 <= range_offset r
                        /\ range_offset r + range_length r <= strlen body) new.
Proof.
  destruct (handleMentions_loop_spec body items form) as (groups & Hgroups & E).
  destruct (mention_groups_mark body items items groups Hgroups) as [H1 H2]; [auto|].
  exists (List.concat groups). repeat split; auto.
  apply Forall_forall. intros r Hr.
  rewrite Forall_forall in H1.
  destruct (H1 r Hr) as (item & tag & _ & _ & _ & Hlen & Hocc).
  rewrite Hlen. apply (occurs_at_bound body tag). exact Hocc.
Qed.

Lemma handleMention_push_attachment (body : option string) (item : Mention)
    (form : Form) (d : Descriptor) :
  handleMention body item (push_attachment form d) =
  map_result (fun f => push_attachment f d) (handleMention body item form).
Proof.
  unfold handleMention.
  destruct (mention_tag item); try reflexivity.
  destruct (negb (truthy (mention_id item))); try reflexivity.
  destruct body as [body|]; try reflexivity.
  destruct (_ <? 0); reflexivity.
Qed.

Lemma handleMentions_push_attachment (m : MessageObject) (form : Form)
    (d : Descriptor) :
  handleMentions m (push_attachment form d) =
  map_result (fun f => push_attachment f d) (handleMentions m form).
Proof.
  unfold handleMentions.
  destruct (msg_mentions m) as [items|]; [|reflexivity].
  generalize (msg_body m). intros body. revert form.
  induction items as [|item items IH]; intros form; simpl; [reflexivity|].
  rewrite handleMention_push_attachment.
  destruct (handleMention body item form) as [form1|e]; simpl; [apply IH | reflexivity].
Qed.

(** X9: the mention handler works on the range list only, so it commutes
    with the URL and sticker handlers: handling the mentions before or after
    either gives the same form, or the same failure.  The URL and sticker
    handlers both add to the end of the attachment list, so their order
    shows: the one called last has its descriptor last. *)
Theorem mentions_commute_with_url_and_sticker (m : MessageObject) (form : Form) :
  handleMentions m (handleURL m form) =
    map_result (handleURL m) (handleMentions m form)
  /\ handleMentions m (handleSticker m form) =
     map_result (handleSticker m) (handleMentions m form)
  /\ attachments (input (handleSticker m (handleURL m form))) =
     (attachments (input form) ++ url_descriptor m ++ sticker_descriptor m)%list
  /\ attachments (input (handleURL m (handleSticker m form))) =
     (attachments (input form) ++ sticker_descriptor m ++ url_descriptor m)%list.
Proof.
  assert (Hid : forall r : result Form, r = map_result (fun f => f) r)
    by (intros [f|e]; reflexivity).
  repeat split.
  - unfold handleURL. destruct (msg_url m); try apply Hid.
    apply handleMentions_push_attachment.
  - unfold handleSticker. destruct (truthy (msg_sticker m)); [|apply Hid].
    apply handleMentions_push_attachment.
  - destruct (handleSticker_lists m (handleURL m form)) as (-> & _).
    destruct (handleURL_lists m form) as (-> & _).
    rewrite app_assoc. reflexivity.
  - destruct (handleURL_lists m (handleSticker m form)) as (-> & _).
    destruct (handleSticker_lists m form) as (-> & _).
    rewrite app_assoc. reflexivity.
Qed.
End Ranges.

(** ** How often the callback is called, and with what *)

Section CallbackCalls.
Context {collaborators : Collaborators}.

Lemma completion_callbacks (cb : Completion) (settled : result value) :
  (exists err data, callbacks (fst (completion cb settled)) = [(err, data)])
  \/ exists f info e,
      cb = UserCallback f
      /\ settled = Ok info
      /\ call_function f VNull info = Throw e
      /\ callbacks (fst (completion cb settled)) =
         [(VNull, info); (e, VUndefined)].
Proof.
  destruct settled as [info|err]; simpl.
  - unfold on_fulfilled, invoke. destruct cb as [|f]; simpl; [eauto|].
    destruct (call_function f VNull info) as [v|e] eqn:E; simpl; [eauto|].
    right. exists f, info, e. repeat split; auto.
    unfold on_rejected, invoke.
    destruct (call_function f e VUndefined); reflexivity.
  - destruct (on_rejected_calls cb err) as (-> & _). eauto.
Qed.

(** X10: a call calls its completion callback at most twice, and twice only
    in one case: the caller's callback threw when it was called with the
    result, and is then called again, with what it threw as the error. *)
Theorem callback_called_at_most_twice (st : State) (msg : MsgArg)
    (postID replyCommentID : value) (callback : option nat) :
  let r := fst (createCommentPost st msg postID replyCommentID callback) in
  (List.length (callbacks (events r)) <= 2)%nat
  /\ forall c1 c2 : value * value,
      callbacks (events r) = [c1; c2] ->
      exists f info e,
        snd (optional_parameters replyCommentID callback) = UserCallback f
        /\ c1 = (VNull, info)
        /\ call_function f VNull info = Throw e
        /\ c2 = (e, VUndefined).
Proof.
  intros r. subst r.
  destruct (createCommentPost_cases st msg postID replyCommentID callback)
    as [(message & _ & E)
       | [(e & _ & _ & _ & E) | (m & p & -> & Hty & Hprep & _)]].
  - rewrite E.
    destruct (fail_validation_run
                (snd (optional_parameters replyCommentID callback)) message st)
      as (Hd & Ha & _).
    unfold events. rewrite Hd, Ha. simpl. split; [lia | discriminate].
  - rewrite E. simpl. split; [lia | discriminate].
  - destruct (createCommentPost_completion st msg p replyCommentID callback m
                Hty Hprep) as (_ & _ & -> & _).
    destruct (completion_callbacks
                (snd (optional_parameters replyCommentID callback))
                (settlement m (build_form st m (VStr p)
                                 (fst (optional_parameters replyCommentID callback)))))
      as [(err & data & ->) | (f & info & e & Hcb & _ & Hthrow & ->)].
    + simpl. split; [lia | discriminate].
    + simpl. split; [lia|].
      intros c1 c2 H. injection H as <- <-. exists f, info, e. auto.
Qed.

(** X11: without a caller's callback, a failure whose reason is falsy
    (a rejection with [undefined], 0 or the empty string, an upload
    answered by [false]) fulfils the promise with [undefined] instead of
    rejecting it: the default callback tests the reason for truthiness. *)
Theorem falsy_failure_fulfils_the_promise (st : State) (msg : MsgArg) (p : string)
    (replyCommentID : value) (callback : option nat) (m : MessageObject)
    (e : value) :
  let r := fst (createCommentPost st msg (VStr p) replyCommentID callback) in
  typeof_msg msg = TString \/ typeof_msg msg = TObject ->
  prepare msg = Ok m ->
  snd (optional_parameters replyCommentID callback) = DefaultCallback ->
  settlement m (build_form st m (VStr p)
                  (fst (optional_parameters replyCommentID callback))) = Throw e ->
  truthy e = false ->
  fails_with r e /\ promise r = Fulfilled VUndefined.
Proof.
  intros r Hty Hprep Hcb Hs Hfalsy. subst r.
  destruct (createCommentPost_completion st msg p replyCommentID callback m
              Hty Hprep) as (_ & _ & Hc & Hp).
  rewrite Hs in Hc, Hp.
  destruct (completion_failure
              (snd (optional_parameters replyCommentID callback)) e) as [Hc' Hp'].
  unfold fails_with. rewrite Hc, Hp, Hc', Hp', Hcb. simpl. rewrite Hfalsy. auto.
Qed.
End CallbackCalls.

(** ** The result of the mutation *)

Section Created.
Context {collaborators : Collaborators}.


End Created.

(** ** The feedback identifier *)

Section FeedbackId.
Context {collaborators : Collaborators}.

Lemma utf8_decode_char (c : ascii) (rest : list N) :
  utf8_decode (utf8_of_char c ++ rest) =
  match utf8_decode rest with
  | Some s => Some (String c s)
  | None => None
  end.
Proof. destruct c as [[] [] [] [] [] [] [] []]; reflexivity. Qed.

Lemma utf8_decode_utf8 (s : string) : utf8_decode (utf8 s) = Some s.
Proof.
  induction s as [|c s IH]; [reflexivity|].
  cbn [utf8]. rewrite utf8_decode_char, IH. reflexivity.
Qed.

(** X13: the feedback identifier can be decoded: its base64 digits give
    back the UTF-8 bytes of ["feedback:" + postID], and these the string.
    Hence two forms have the same feedback identifier only when they are
    built for the same post id. *)
Theorem feedback_id_determines_the_post (st : State) (m : MessageObject)
    (p : string) (reply : value) :
  match base64_decode (feedback_id (input (build_form st m (VStr p) reply))) with
  | Some bytes => utf8_decode bytes = Some ("feedback:" ++ p)
  | None => False
  end
  /\ forall (st' : State) (m' : MessageObject) (p' : string) (reply' : value),
      feedback_id (input (build_form st m (VStr p) reply)) =
      feedback_id (input (build_form st' m' (VStr p') reply')) ->
      p = p'.
Proof.
  assert (E : forall st m p reply,
    feedback_id (input (build_form st m (VStr p) reply)) =
    base64 (utf8 ("feedback:" ++ p))) by reflexivity.
  split.
  - rewrite E, base64_utf8_decodes. apply utf8_decode_utf8.
  - intros st' m' p' reply' H. rewrite !E in H.
    apply (f_equal base64_decode) in H. rewrite !base64_utf8_decodes in H.
    injection H as H.
    apply (f_equal utf8_decode) in H. rewrite !utf8_decode_utf8 in H.
    injection H as H. exact H.
Qed.
End FeedbackId.

(** * Properties of the control server *)

Section ServerHandlers.
Context {host : Host}.

Lemma error_response_not_200 (err : value) (body : value) :
  error_response err <> Json 200 body.
Proof. unfold error_response. destruct (get err "message"); discriminate. Qed.

(** The three ways an activation ends. *)
Lemma activate_outcome (fresh : nat) (s : Server) (body : value) :
  let h := activate fresh s body in
  (exists err,
      response h = error_response err /\ spawned h = None /\ server_after h = s
      /\ Forall (fun c => exists path data, c = WriteFile path data) (host_calls h))
  \/ (exists err d1 d2,
        response h = error_response err /\ spawned h = None
        /\ spawn "node" [path_join BOT_CWD BOT_MAIN] BOT_CWD = Throw err
        /\ server_after h =
           match botProcess s with
           | Some _ => {| botProcess := None; botStatus := "stopped" |}
           | None => s
           end
        /\ host_calls h =
           ([WriteFile (path_join dirname "config.json") d1;
             WriteFile (path_join dirname "appstate.json") d2]
            ++ match botProcess s with
               | Some p => [Kill p "SIGTERM"]
               | None => []
               end
            ++ [Spawn "node" [path_join BOT_CWD BOT_MAIN] BOT_CWD])%list)
  \/ (exists new_pid d1 d2,
        response h = Json 200 (VObj [("status", VStr "started"); ("pid", new_pid)])
        /\ spawned h = Some {| child := fresh; pid := new_pid |}
        /\ spawn "node" [path_join BOT_CWD BOT_MAIN] BOT_CWD = Ok new_pid
        /\ server_after h =
           {| botProcess := Some {| child := fresh; pid := new_pid |};
              botStatus := "running" |}
        /\ host_calls h =
           ([WriteFile (path_join dirname "config.json") d1;
             WriteFile (path_join dirname "appstate.json") d2]
            ++ match botProcess s with
               | Some p => [Kill p "SIGTERM"]
               | None => []
               end
            ++ [Spawn "node" [path_join BOT_CWD BOT_MAIN] BOT_CWD])%list).
Proof.
  unfold activate, writeJSONSafe, failed.
  destruct (destructure body "name") as [name|err];
    [|left; exists err; simpl; auto].
  destruct (destructure body "prefix") as [prefix|err];
    [|left; exists err; simpl; auto].
  destruct (destructure body "adminUID") as [adminUID|err];
    [|left; exists err; simpl; auto].
  destruct (destructure body "appstate") as [appstate|err];
    [|left; exists err; simpl; auto].
  destruct (writeFileSync (path_join dirname "config.json") _) as [[]|err];
    [|left; exists err; simpl; repeat split; auto;
      repeat constructor; eauto].
  destruct (writeFileSync (path_join dirname "appstate.json") _) as [[]|err];
    [|left; exists err; simpl; repeat split; auto;
      repeat constructor; eauto].
  destruct (spawn "node" [path_join BOT_CWD BOT_MAIN] BOT_CWD) as [new_pid|err] eqn:E.
  - right. right. exists new_pid. do 2 eexists.
    destruct (botProcess s); simpl; repeat split; reflexivity.
  - right. left. exists err. do 2 eexists.
    destruct (botProcess s); simpl; repeat split; reflexivity.
Qed.

(** X15: an activation that answers [started] has made its host calls in
    this order: write [config.json], write [appstate.json], send SIGTERM to
    the child held if there is one (once, whether or not that succeeds),
    spawn [node] on the bot's main file in the bot's directory; the server
    then holds the new child, with status [running], and reports its pid. *)
Theorem activation_restarts_the_bot (fresh : nat) (s : Server) (body : value)
    (p : ChildProcess) :
  let h := activate fresh s body in
  spawned h = Some p ->
  child p = fresh
  /\ spawn "node" [path_join BOT_CWD BOT_MAIN] BOT_CWD = Ok (pid p)
  /\ response h = Json 200 (VObj [("status", VStr "started"); ("pid", pid p)])
  /\ server_after h = {| botProcess := Some p; botStatus := "running" |}
  /\ exists d1 d2,
      host_calls h =
      ([WriteFile (path_join dirname "config.json") d1;
        WriteFile (path_join dirname "appstate.json") d2]
       ++ match botProcess s with
          | Some old => [Kill old "SIGTERM"]
          | None => []
          end
       ++ [Spawn "node" [path_join BOT_CWD BOT_MAIN] BOT_CWD])%list.
Proof.
  intros h Hp. subst h.
  destruct (activate_outcome fresh s body)
    as [(err & _ & H & _) | [(err & d1 & d2 & _ & H & _)
                            | (new_pid & d1 & d2 & Hr & H & Hs & Hafter & Hcalls)]];
    try congruence.
  rewrite H in Hp. injection Hp as <-. simpl.
  split; [reflexivity|]. split; [exact Hs|]. split; [exact Hr|].
  split; [exact Hafter|]. exists d1, d2. exact Hcalls.
Qed.

(** X16: an activation that does not start a child answers with the error
    and is not undone: if it failed before the restart (the body is missing,
    or a file could not be written) the server is as it was, though
    [config.json] may have been replaced; if the spawn failed, the child
    that was held has been sent SIGTERM and dropped, and the status is
    [stopped]. *)
Theorem failed_activation_is_not_undone (fresh : nat) (s : Server) (body : value) :
  let h := activate fresh s body in
  spawned h = None ->
  exists err,
    response h = error_response err
    /\ ((server_after h = s
         /\ Forall (fun c => exists path data, c = WriteFile path data) (host_calls h))
        \/ (spawn "node" [path_join BOT_CWD BOT_MAIN] BOT_CWD = Throw err
            /\ botProcess (server_after h) = None
            /\ (forall old, botProcess s = Some old ->
                            In (Kill old "SIGTERM") (host_calls h)
                            /\ botStatus (server_after h) = "stopped"))).
Proof.
  intros h Hnone. subst h.
  destruct (activate_outcome fresh s body)
    as [(err & Hr & _ & Hs & Hcalls)
       | [(err & d1 & d2 & Hr & _ & Hspawn & Hs & Hcalls)
         | (new_pid & d1 & d2 & _ & H & _)]]; [| |congruence].
  - exists err. auto.
  - exists err. split; [exact Hr|]. right. split; [exact Hspawn|].
    rewrite Hs, Hcalls. destruct (botProcess s) as [old|] eqn:E; simpl.
    + split; [reflexivity|]. intros old' H. injection H as <-. auto.
    + rewrite E. split; [reflexivity|]. intros old H. discriminate.
Qed.

(** X17: a stop either drops the child held, after which a further stop
    answers [not_running] and calls nothing, or fails because [kill] threw,
    and then changes nothing: the child is still held. *)
Theorem stop_drops_the_child_or_changes_nothing (s : Server) :
  let h := stop s in
  (botProcess (server_after h) = None
   /\ stop (server_after h) =
      {| response := Json 200 (VObj [("status", VStr "not_running")]);
         server_after := server_after h;
         host_calls := [];
         spawned := None |})
  \/ exists p err,
      botProcess s = Some p
      /\ kill p "SIGTERM" = Throw err
      /\ server_after h = s
      /\ response h = error_response err.
Proof.
  unfold stop. destruct (botProcess s) as [p|] eqn:E.
  - destruct (kill p "SIGTERM") as [v|err] eqn:K.
    + left. simpl. auto.
    + right. exists p, err. simpl. auto.
  - left. simpl. rewrite E. auto.
Qed.
End ServerHandlers.

Section ServerRuns.

(** What holds of every world the server can be in. *)
Lemma reachable_invariant (w : World) :
  reachable w ->
  ((botStatus (server w) = "running"
    /\ exists p, botProcess (server w) = Some p /\ In p (children w))
   \/ (botStatus (server w) = "stopped" /\ botProcess (server w) = None))
  /\ Forall (fun p => (child p < spawns w)%nat) (children w).
Proof.
  induction 1 as [|host w ev Hw IH Hev].
  - simpl. split; [right; auto | constructor].
  - destruct IH as [IH1 IH2].
    destruct ev as [|body| |k]; simpl.
    + auto.
    + destruct (activate_outcome (spawns w) (server w) body)
        as [(err & _ & -> & -> & _)
           | [(err & d1 & d2 & _ & -> & _ & -> & _)
             | (new_pid & d1 & d2 & _ & -> & _ & -> & _)]].
      * auto.
      * split; [|exact IH2].
        destruct (botProcess (server w)) eqn:E in |- *; [right; auto | exact IH1].
      * split.
        -- left. split; [reflexivity|]. eexists. split; [reflexivity|].
           left. reflexivity.
        -- constructor; [simpl; lia|].
           eapply Forall_impl; [|exact IH2]. simpl. intros; lia.
    + split; [|exact IH2]. unfold stop.
      destruct (botProcess (server w)) as [p|] eqn:E in |- *.
      * destruct (kill p "SIGTERM"); simpl; [right; auto | exact IH1].
      * simpl. exact IH1.
    + split; [right; auto|].
      apply Forall_forall. intros p Hp. apply filter_In in Hp.
      rewrite Forall_forall in IH2. apply IH2. tauto.
Qed.

(** X18: in every state the server can reach, whatever the host answers,
    the status is [running] exactly when a child is held: either it is
    [running] and [botProcess] is a child whose [close] is still to come, or
    it is [stopped] and [botProcess] is [null]. *)
Theorem status_is_running_when_a_child_is_held (w : World) :
  reachable w ->
  (botStatus (server w) = "running"
   /\ exists p, botProcess (server w) = Some p /\ In p (children w))
  \/ (botStatus (server w) = "stopped" /\ botProcess (server w) = None).
Proof. intros H. apply (reachable_invariant w H). Qed.

(** X6: the [close] handler does not look at which child closed.  When a
    running bot is replaced by an activation and the old child closes
    afterwards, the server forgets the new child: it holds none, reports
    [stopped] with no pid, and answers [not_running] to a stop without
    sending any signal, while the new child has neither closed nor been
    signalled. *)
Theorem close_of_a_replaced_child_hides_the_new_one (host : Host) (w : World)
    (old : ChildProcess) (body : value) (new_pid : value) :
  let w1 := fst (fst (step w (PostActivate body))) in
  let w2 := fst (fst (step w1 (ChildClosed (child old)))) in
  let new := {| child := spawns w; pid := new_pid |} in
  reachable w ->
  botProcess (server w) = Some old ->
  snd (fst (step w (PostActivate body))) =
    Some (Json 200 (VObj [("status", VStr "started"); ("pid", new_pid)])) ->
  botProcess (server w1) = Some new
  /\ can_happen w1 (ChildClosed (child old))
  /\ server w2 = {| botProcess := None; botStatus := "stopped" |}
  /\ In new (children w2)
  /\ step w2 GetStatus =
     (w2, Some (Json 200 (VObj [("status", VStr "stopped"); ("pid", VNull)])), [])
  /\ snd (fst (step w2 PostStop)) =
     Some (Json 200 (VObj [("status", VStr "not_running")]))
  /\ snd (step w2 PostStop) = [].
Proof.
  intros w1 w2 new Hw Hold Hstarted.
  destruct (reachable_invariant w Hw) as [Hstatus Hids].
  assert (Hin : In old (children w)).
  { destruct Hstatus as [(_ & p & Hp & Hin) | [_ Hnone]]; congruence. }
  assert (Hlt : (child old < spawns w)%nat).
  { rewrite Forall_forall in Hids. exact (Hids old Hin). }
  simpl in Hstarted.
  assert (Hh : spawned (activate (spawns w) (server w) body) = Some new
               /\ server_after (activate (spawns w) (server w) body) =
                  {| botProcess := Some new; botStatus := "running" |}).
  { destruct (activate_outcome (spawns w) (server w) body)
      as [(err & Hr & _) | [(err & d1 & d2 & Hr & _)
                           | (pid' & d1 & d2 & Hr & Hsp & _ & Hafter & _)]].
    - rewrite Hr in Hstarted. injection Hstarted as H.
      exfalso. exact (error_response_not_200 _ _ H).
    - rewrite Hr in Hstarted. injection Hstarted as H.
      exfalso. exact (error_response_not_200 _ _ H).
    - rewrite Hr in Hstarted. injection Hstarted as <-. auto. }
  destruct Hh as [Hsp Hafter].
  assert (Hchildren : children w1 = new :: children w).
  { subst w1. simpl. rewrite Hsp. reflexivity. }
  assert (Hnew : In new (children w2)).
  { assert (Hc2 : children w2 =
                  filter (fun p => negb (is_child (child old) p)) (children w1))
      by reflexivity.
    rewrite Hc2, Hchildren. apply filter_In. split.
    - left. reflexivity.
    - unfold is_child. simpl. apply negb_true_iff. apply Nat.eqb_neq. lia. }
  repeat split.
  - subst w1. simpl. rewrite Hafter. reflexivity.
  - exists old. split; [|reflexivity]. rewrite Hchildren. right. exact Hin.
  - exact Hnew.
Qed.
End ServerRuns.

(** * Concrete runs for the further properties *)

Lemma submission_means_all_uploaded_witness :
  exists form fbids,
    submitted_forms
      (events (run_of (Ok created_response) (MsgObject two_streams) (VStr "123")
                 None)) = [form]
    /\ upload_requests
         (events (run_of (Ok created_response) (MsgObject two_streams) (VStr "123")
                    None)) =
       map (@upload_request (test_collaborators (Ok created_response)))
         [a_stream; a_stream]
    /\ List.length fbids = 2%nat
    /\ attachments (input form) = map Media fbids.
Proof.
  eexists.
  destruct (@submission_means_all_uploaded
              (test_collaborators (Ok created_response)) initial_state
              (MsgObject two_streams) (VStr "123") VUndefined None _
              (or_introl eq_refl))
    as (H1 & H2 & m & fbids & Hm & Hlen & _ & Ha).
  exists fbids. split; [exact H1|]. split; [exact H2|]. split; [exact Hlen|].
  injection Hm as <-. rewrite Ha. simpl. rewrite app_nil_r. reflexivity.
Defined.

Lemma failed_upload_fails_the_call_witness :
  exists e,
    fails_with
      (fst (@createCommentPost
              (collaborators_with second_upload_refused (Ok created_response) returning)
              initial_state (MsgObject two_streams) (VStr "123") VUndefined None))
      e
    /\ submitted_forms
         (events
            (fst (@createCommentPost
                    (collaborators_with second_upload_refused (Ok created_response)
                       returning)
                    initial_state (MsgObject two_streams) (VStr "123") VUndefined
                    None))) = [].
Proof.
  destruct (@failed_upload_fails_the_call
              (collaborators_with second_upload_refused (Ok created_response) returning)
              initial_state two_streams "123" VUndefined None
              1%nat a_stream refused_response)
    as (_ & Hsub & k & item & e & _ & _ & Hfails & _).
  - repeat constructor.
  - reflexivity.
  - reflexivity.
  - exists e. split; [exact Hfails | exact Hsub].
Defined.

Lemma upload_response_accepted_or_thrown_witness :
  upload_then (upload_response (VStr "m1")) = Ok (Media (VStr "m1")).
Proof.
  apply (proj1 (upload_response_accepted_or_thrown (upload_response (VStr "m1")))).
  exists VUndefined, (VObj [("fbid", VStr "m1")]), (VStr "m1").
  repeat split; reflexivity.
Defined.

Lemma reply_parent_of_the_submitted_form_witness :
  reply_comment_parent_fbid
    (input (@build_form (test_collaborators (Ok created_response)) initial_state
              (with_defaults (body_only "hi")) (VStr "123") (VStr "c9"))) =
  VStr "c9".
Proof.
  apply (proj2 (@reply_parent_of_the_submitted_form
                  (test_collaborators (Ok created_response)) initial_state
                  (MsgString "hi") (VStr "123") (VStr "c9") None)).
  left. reflexivity.
Defined.


Lemma callback_called_at_most_twice_witness :
  exists f info e,
    @call_function
      (collaborators_with second_upload_refused (Ok created_response)
         throwing_on_result) f VNull info = Throw e
    /\ (VNull, VObj [("id", VStr "c1"); ("url", VStr "https://fb/c1");
                     ("count", VNum 7)]) = (VNull, info)
    /\ (Error "cannot render the comment", VUndefined) = (e, VUndefined).
Proof.
  destruct (proj2 (@callback_called_at_most_twice
                     (collaborators_with second_upload_refused (Ok created_response)
                        throwing_on_result)
                     initial_state (MsgString "hi") (VStr "123") VUndefined
                     (Some 0%nat))
              (VNull, VObj [("id", VStr "c1"); ("url", VStr "https://fb/c1");
                            ("count", VNum 7)])
              (Error "cannot render the comment", VUndefined))
    as (f & info & e & _ & H1 & H2 & H3).
  - reflexivity.
  - exists f, info, e. auto.
Defined.

Lemma falsy_failure_fulfils_the_promise_witness :
  promise
    (fst (@createCommentPost
            (collaborators_with uploads_answered_false (Ok created_response) returning)
            initial_state (MsgObject two_streams) (VStr "123") VUndefined None)) =
  Fulfilled VUndefined.
Proof.
  apply (@falsy_failure_fulfils_the_promise
           (collaborators_with uploads_answered_false (Ok created_response) returning)
           initial_state (MsgObject two_streams) "123" VUndefined None
           (with_defaults two_streams) (VBool false)).
  - right. reflexivity.
  - reflexivity.
  - reflexivity.
  - reflexivity.
  - reflexivity.
Defined.

Lemma failed_validation_returns_what_the_callback_returns_witness :
  outcome (run_of (Ok created_response) (MsgNumber 5) (VNum 7) None) =
  Returns (RetValue VUndefined).
Proof.
  destruct (@failed_validation_returns_what_the_callback_returns
              (test_collaborators (Ok created_response)) initial_state
              (MsgNumber 5) (VNum 7) VUndefined None)
    as (message & _ & _ & H & _).
  - left. split; discriminate.
  - exact H.
Defined.

Lemma feedback_id_determines_the_post_witness :
  "123" = "123".
Proof.
  apply (proj2 (@feedback_id_determines_the_post
                  (test_collaborators (Ok created_response)) initial_state
                  (body_only "hi") "123" VNull)
           initial_state (body_only "again") "123" (VStr "c9")).
  reflexivity.
Defined.

Lemma activation_restarts_the_bot_witness :
  @server_after
    (@activate (obliging_host 4000) 0 initial_server activation_body) =
  {| botProcess := Some {| child := 0; pid := VNum 4000 |};
     botStatus := "running" |}.
Proof.
  apply (@activation_restarts_the_bot (obliging_host 4000) 0%nat initial_server
           activation_body {| child := 0; pid := VNum 4000 |}).
  reflexivity.
Defined.

Lemma failed_activation_is_not_undone_witness :
  exists err,
    response (@activate full_disk_host 0 initial_server activation_body) =
    error_response err.
Proof.
  destruct (@failed_activation_is_not_undone full_disk_host 0%nat initial_server
              activation_body) as (err & H & _).
  - reflexivity.
  - exists err. exact H.
Defined.

Lemma status_is_running_when_a_child_is_held_witness :
  (botStatus (server running_world) = "running"
   /\ exists p, botProcess (server running_world) = Some p
                /\ In p (children running_world))
  \/ (botStatus (server running_world) = "stopped"
      /\ botProcess (server running_world) = None).
Proof.
  apply (status_is_running_when_a_child_is_held running_world).
  exact (reachable_step (obliging_host 4000) initial_world
           (PostActivate activation_body) reachable_initial I).
Defined.

Lemma close_of_a_replaced_child_hides_the_new_one_witness :
  In {| child := 1; pid := VNum 4001 |}
    (children
       (fst (fst (@step (obliging_host 4001)
                    (fst (fst (@step (obliging_host 4001) running_world
                                 (PostActivate activation_body))))
                    (ChildClosed 0)))))
  /\ snd (fst (@step (obliging_host 4001)
                 (fst (fst (@step (obliging_host 4001)
                              (fst (fst (@step (obliging_host 4001) running_world
                                           (PostActivate activation_body))))
                              (ChildClosed 0))))
                 PostStop)) =
     Some (Json 200 (VObj [("status", VStr "not_running")])).
Proof.
  destruct (@close_of_a_replaced_child_hides_the_new_one (obliging_host 4001)
              running_world {| child := 0; pid := VNum 4000 |} activation_body
              (VNum 4001))
    as (_ & _ & _ & Hin & _ & Hstop & _).
  - exact (reachable_step (obliging_host 4000) initial_world
             (PostActivate activation_body) reachable_initial I).
  - reflexivity.
  - reflexivity.
  - split; [exact Hin | exact Hstop].
Defined.
